(** * Node and link persistence of the SQLAlchemy backend

    A shallow embedding of [aiida/orm/implementation/sqlalchemy/node.py]
    (class [Node]): the attribute and extra accessors ([_set_attr],
    [_del_attr], [get_attr], [set_extra], [reset_extras], [get_extra],
    [del_extra]), the link validator ([_add_dblink_from],
    [_do_create_link], [_replace_dblink_from], [_remove_dblink_from])
    and the store coordinator ([store], [store_all],
    [_store_input_nodes], [_store_cached_input_links],
    [_check_are_parents_stored]).

    Python objects live in a heap indexed by locations, so that the link
    cache of one node refers to the very objects of its parents.  Methods
    are computations in a state-and-exception monad over the [World]: a
    raised exception keeps the mutations done before it, as in Python. *)

From Stdlib Require Import ZArith Lia.
From stdpp Require Import base gmap strings list pretty.

#[local] Set Warnings "-register-all".

Local Open Scope string_scope.
Local Open Scope list_scope.
Local Open Scope Z_scope.

(** ** Attribute values *)

(** Attribute and extra values are JSON-like Python structures. *)
Inductive value : Type :=
| VNone
| VBool (b : bool)
| VInt (z : Z)
| VStr (s : string)
| VList (items : list value)
| VDict (items : list (string * value)).

(** Python's truth value of an object, as tested by [if default:]. *)
Definition truthy (v : value) : bool :=
  match v with
  | VNone => false
  | VBool b => b
  | VInt z => negb (z =? 0)
  | VStr s => negb (String.eqb s "")
  | VList items => negb (Nat.eqb (length items) 0)
  | VDict items => negb (Nat.eqb (length items) 0)
  end.

(** [copy.deepcopy]: a structure rebuilt node by node, sharing nothing
    with its argument. *)
Fixpoint deepcopy (v : value) : value :=
  match v with
  | VNone => VNone
  | VBool b => VBool b
  | VInt z => VInt z
  | VStr s => VStr s
  | VList items => VList (List.map deepcopy items)
  | VDict items =>
      VDict (List.map (fun kv => (fst kv, deepcopy (snd kv))) items)
  end.

(** ** Exceptions *)

(** The exception classes the module raises, with the constant part of
    their message (format arguments are left out). *)
Inductive exn : Type :=
| ValueError (msg : string)
| TypeError (msg : string)
| AttributeError (msg : string)
| ModificationNotAllowed (msg : string)
| InternalError (msg : string)
| UniquenessError (msg : string)
| ValidationError (msg : string)
| KeyError (msg : string)
| IndexError (msg : string)
| SQLAlchemyError (msg : string)
| IOError (msg : string).

(** ** Link types and rows *)

(** [aiida.common.links.LinkType]: the members this module names, and the
    remaining members of the enumeration by their value. *)
Inductive LinkType : Type :=
| UNSPECIFIED
| CREATE
| INPUT
| OTHER (value : string).

(** [link_type is LinkType.CREATE or link_type is LinkType.INPUT] *)
Definition is_strong (link_type : LinkType) : bool :=
  match link_type with
  | CREATE | INPUT => true
  | _ => false
  end.

(** A row of the link table, as built by
    [DbLink(input_id=..., output_id=..., label=..., type=...)]. *)
Record DbLink : Type := mkDbLink {
  input_id : option Z;
  output_id : option Z;
  label : string;
  type : LinkType
}.

(** ** Nodes *)

(** The ORM object behind a node ([self._dbnode]). *)
Record DbNode : Type := mkDbNode {
  id : option Z;
  uuid : string;
  node_type : string;
  attributes : option (gmap string value);
  extras : option (gmap string value);
  nodeversion : Z
}.

Definition loc := nat.

(** The contents of a folder: the names of the files in it. *)
Definition Folder := list string.

(** The Python object [Node].  [_attrs_cache] is [None] once the
    attribute has been deleted by [del self._attrs_cache];
    [_inputlinks_cache] is the dict label -> (src, link_type), in the
    order it is iterated. *)
Record Node : Type := mkNode {
  _to_be_stored : bool;
  _dbnode : DbNode;
  _attrs_cache : option (gmap string value);
  _inputlinks_cache : list (string * (loc * LinkType));
  _temp_folder : option Folder
}.

(** Modelled from the spec: [AbstractNode.is_stored], which is not under
    src/; the storage flag [to_be_stored] is true exactly while the node
    is unstored. *)
Definition is_stored (n : Node) : bool := negb (_to_be_stored n).

(** ** The relational backend *)

(** Modelled from the spec: the tables of the relational backend
    ([aiida.backends.sqlalchemy], whose models are not under src/).  A
    node row is kept by its primary key and uuid; a link row carries
    (source id, destination id, label, type); [db_paths] is the
    transitive-closure table [DbPath] of (parent_id, child_id) pairs,
    which the backend maintains only when the closure is enabled;
    [db_groups] maps (name, type_string) to the uuids of the members. *)
Record Tables : Type := mkTables {
  db_nodes : gmap Z string;
  db_links : list DbLink;
  db_paths : list (Z * Z);
  db_groups : gmap (string * string) (list string);
  db_next_id : Z
}.

(** The session: the tables as this session sees them ([cur]), the last
    committed state, the link rows written by concurrent writers that
    this session's queries have not seen ([unseen_links]), and whether
    the backend refuses the next commit. *)
Record Session : Type := mkSession {
  cur : Tables;
  committed : Tables;
  unseen_links : list DbLink;
  commit_fails : bool
}.

Definition set_links (t : Tables) (links : list DbLink) : Tables :=
  mkTables (db_nodes t) links (db_paths t) (db_groups t) (db_next_id t).

Definition set_groups (t : Tables)
    (groups : gmap (string * string) (list string)) : Tables :=
  mkTables (db_nodes t) (db_links t) (db_paths t) groups (db_next_id t).

Definition set_cur (s : Session) (t : Tables) : Session :=
  mkSession t (committed s) (unseen_links s) (commit_fails s).

Definition option_Z_eqb (a b : option Z) : bool :=
  match a, b with
  | Some x, Some y => x =? y
  | _, _ => false
  end.

(** Two link rows clash when they share destination and label. *)
Definition same_dest_label (a b : DbLink) : bool :=
  option_Z_eqb (output_id a) (output_id b) && String.eqb (label a) (label b).

Definition row_exists (t : Tables) (k : option Z) : bool :=
  match k with
  | Some i => bool_decide (is_Some (db_nodes t !! i))
  | None => false
  end.

(** Modelled from the spec: the constraints of the link table (the
    declaration of [DbLink] is not under src/): no two links share the
    same (destination, label) pair, and both endpoints of a link row are
    keys of node rows.  Rows of concurrent writers count for the
    uniqueness. *)
Definition link_insert_allowed (s : Session) (row : DbLink) : bool :=
  row_exists (cur s) (input_id row)
  && row_exists (cur s) (output_id row)
  && negb (existsb (same_dest_label row) (db_links (cur s) ++ unseen_links s)).

(** [session.add(link)] under [session.begin_nested()]: the row is
    written, or the savepoint is rolled back and nothing has changed. *)
Definition insert_link (s : Session) (row : DbLink) : option Session :=
  if link_insert_allowed s row
  then Some (set_cur s (set_links (cur s) (db_links (cur s) ++ [row])))
  else None.

(** [DbPath.query.filter_by(parent_id=..., child_id=...).exists()] *)
Definition path_exists (t : Tables) (parent child : option Z) : bool :=
  match parent, child with
  | Some p, Some c =>
      existsb (fun pc => (fst pc =? p) && (snd pc =? c)) (db_paths t)
  | _, _ => false
  end.

(** [session.query(DbLink.label).filter(DbLink.output_id == ...,
    DbLink.label.like("link%"))] *)
Definition has_link_prefix (l : string) : bool := String.prefix "link" l.

Definition existing_from_autolabels (t : Tables) (dest : option Z)
    : list string :=
  List.map label
    (List.filter
       (fun r => option_Z_eqb (output_id r) dest && has_link_prefix (label r))
       (db_links t)).

(** ** The world *)

(** Modelled from the spec: [aiida.orm.autogroup.current_autogroup], the
    process-wide autogroup context (its class is not under src/): the
    hook is a function from the node to an optional group name.  The
    module variable may also hold an object that is no [Autogroup]. *)
Inductive AutogroupObj : Type :=
| NotAnAutogroup
| Autogroup (is_to_be_grouped : Node -> bool) (get_group_name : option string).

Definition addr := nat.

(** Everything a method can read or change: the Python objects, the
    session, the permanent repository folders by uuid, whether the file
    system refuses to replace a folder, the autogroup context, the
    structures the caller holds, and what was printed. *)
Record World : Type := mkWorld {
  heap : loc -> Node;
  session : Session;
  repository : gmap string Folder;
  fs_fails : bool;
  current_autogroup : option AutogroupObj;
  objects : addr -> value;
  stdout : list string
}.

Definition set_heap (w : World) (h : loc -> Node) : World :=
  mkWorld h (session w) (repository w) (fs_fails w) (current_autogroup w)
          (objects w) (stdout w).

Definition set_session (w : World) (s : Session) : World :=
  mkWorld (heap w) s (repository w) (fs_fails w) (current_autogroup w)
          (objects w) (stdout w).

Definition set_repository (w : World) (r : gmap string Folder) : World :=
  mkWorld (heap w) (session w) r (fs_fails w) (current_autogroup w)
          (objects w) (stdout w).


Definition set_stdout (w : World) (out : list string) : World :=
  mkWorld (heap w) (session w) (repository w) (fs_fails w)
          (current_autogroup w) (objects w) out.

(** Assignment to the object at [self]. *)
Definition update (h : loc -> Node) (self : loc) (n : Node) : loc -> Node :=
  fun r => if Nat.eqb r self then n else h r.

Definition set_node (w : World) (self : loc) (n : Node) : World :=
  set_heap w (update (heap w) self n).

(** ** The monad of methods *)

(** A call returns, raises, or (for a loop run on fuel) runs out of
    fuel.  Both [Return] and [Raise] carry the world they leave. *)
Inductive outcome (A : Type) : Type :=
| Return (a : A) (w : World)
| Raise (e : exn) (w : World)
| OutOfFuel.

Arguments Return {A} a w.
Arguments Raise {A} e w.
Arguments OutOfFuel {A}.

Definition M (A : Type) : Type := World -> outcome A.

Definition ret {A} (a : A) : M A := fun w => Return a w.

Definition raise {A} (e : exn) : M A := fun w => Raise e w.

Definition bind {A B} (m : M A) (f : A -> M B) : M B :=
  fun w =>
    match m w with
    | Return a w' => f a w'
    | Raise e w' => Raise e w'
    | OutOfFuel => OutOfFuel
    end.

(** [try: m except: h] *)
Definition try_except {A} (m : M A) (h : exn -> M A) : M A :=
  fun w =>
    match m w with
    | Raise e w' => h e w'
    | r => r
    end.

Definition get_world : M World := fun w => Return w w.

Definition put_world (w' : World) : M unit := fun _ => Return tt w'.

Definition read_node (self : loc) : M Node := fun w => Return (heap w self) w.

Definition write_node (self : loc) (n : Node) : M unit :=
  fun w => Return tt (set_node w self n).

Declare Scope py_scope.
Delimit Scope py_scope with py.
Notation "x <- m ;; k" := (bind m (fun x => k))
  (at level 100, m at next level, right associativity) : py_scope.
Notation "m ;;; k" := (bind m (fun _ => k))
  (at level 100, right associativity) : py_scope.
Local Open Scope py_scope.

(** ** Messages *)

Definition msg_self_link : string := "Cannot link to itself".
Definition msg_dest_unstored : string :=
  "Cannot call the internal _add_dblink_from if the destination node is not stored".
Definition msg_src_unstored : string :=
  "Cannot call the internal _add_dblink_from if the source node is not stored".
Definition msg_loop : string :=
  "The link you are attempting to create would generate a loop".
Definition msg_concurrent : string :=
  "Hey! We found more than 100 concurrent adds of links to the same nodes! Are you really doing that??".
Definition msg_same_name : string :=
  "There is already a link with the same name".
Definition msg_parent_unstored : string :=
  "Cannot store the input link because the source node is not stored".
Definition msg_not_stored_yet : string := "Node is not stored yet".
Definition msg_extras_unstored : string :=
  "The extras of a node can be set only after storing the node".
Definition msg_no_attribute : string := "Attribute does not exist".
Definition msg_no_cache : string :=
  "'Node' object has no attribute '_attrs_cache'".
Definition msg_not_autogroup : string :=
  "current_autogroup is not an AiiDA Autogroup".

(** The names the specification gives to these errors. *)
Definition SelfLinkError : exn := ValueError msg_self_link.
Definition CycleError : exn := ValueError msg_loop.
Definition ConcurrencyExhausted : exn := InternalError msg_concurrent.
Definition DuplicateLinkError : exn := UniquenessError msg_same_name.

(** ** The link validator *)

(** [_do_create_link]: the row is inserted under a nested transaction;
    any [SQLAlchemyError] of the backend is re-raised as
    [UniquenessError]. *)
Definition _do_create_link (self src : loc) (label : string)
    (link_type : LinkType) : M unit :=
  fun w =>
    let link := mkDbLink (id (_dbnode (heap w src)))
                         (id (_dbnode (heap w self))) label link_type in
    match insert_link (session w) link with
    | Some s' => Return tt (set_session w s')
    | None => Raise (UniquenessError msg_same_name) w
    end.

(** ["link_{}".format(autolabel_idx)] *)
Definition autolabel (autolabel_idx : Z) : string :=
  "link_" +:+ pretty autolabel_idx.

Definition label_in (l : string) (existing : list string) : bool :=
  existsb (String.eqb l) existing.

(** [while "link_{}".format(autolabel_idx) in existing_from_autolabels:
       autolabel_idx += 1] *)
Fixpoint skip_existing (fuel : nat) (existing : list string)
    (autolabel_idx : Z) : option Z :=
  match fuel with
  | O => None
  | S fuel' =>
      if label_in (autolabel autolabel_idx) existing
      then skip_existing fuel' existing (autolabel_idx + 1)
      else Some autolabel_idx
  end.

(** The [while True:] loop of the automatic labelling, entered with the
    current values of [safety_counter] and [autolabel_idx]. *)
Fixpoint autolabel_loop (fuel : nat) (self src : loc) (link_type : LinkType)
    (safety_counter autolabel_idx : Z) : M unit :=
  match fuel with
  | O => fun _ => OutOfFuel
  | S fuel' =>
      let safety_counter := safety_counter + 1 in
      if safety_counter >? 100
      then raise (InternalError msg_concurrent)
      else
        try_except
          (_do_create_link self src (autolabel autolabel_idx) link_type)
          (fun e =>
             match e with
             | UniquenessError _ =>
                 autolabel_loop fuel' self src link_type safety_counter
                                (autolabel_idx + 1)
             | _ => raise e
             end)
  end.

(** The branch [if label is None:]. *)
Definition add_autolabelled (self src : loc) (link_type : LinkType) : M unit :=
  fun w =>
    let existing :=
      existing_from_autolabels (cur (session w)) (id (_dbnode (heap w self))) in
    match skip_existing (S (length existing)) existing 1 with
    | None => OutOfFuel
    | Some autolabel_idx => autolabel_loop 101 self src link_type 0 autolabel_idx w
    end.

(** The cycle check: a loop would be closed if the closure table already
    has a path from [self] to [src]. *)
Definition check_cycle (self src : loc) (link_type : LinkType) : M unit :=
  fun w =>
    if is_strong link_type
    then
      if path_exists (cur (session w)) (id (_dbnode (heap w self)))
                     (id (_dbnode (heap w src)))
      then Raise (ValueError msg_loop) w
      else Return tt w
    else Return tt w.

(** [_add_dblink_from(src, label, link_type)]: commit the link
    [src -> self].  [src] is a location of the heap, so it is always a
    [Node] and the [isinstance] test passes. *)
Definition _add_dblink_from (self src : loc) (label : option string)
    (link_type : LinkType) : M unit :=
  me <- read_node self ;;
  source <- read_node src ;;
  if String.eqb (uuid (_dbnode me)) (uuid (_dbnode source))
  then raise (ValueError msg_self_link)
  else if _to_be_stored me
  then raise (ModificationNotAllowed msg_dest_unstored)
  else if _to_be_stored source
  then raise (ModificationNotAllowed msg_src_unstored)
  else
    check_cycle self src link_type ;;;
    match label with
    | None => add_autolabelled self src link_type
    | Some l => _do_create_link self src l link_type
    end.

(** ** Session and folder operations *)

(** [session.commit()] *)
Definition session_commit : M unit :=
  fun w =>
    let s := session w in
    if commit_fails s
    then Raise (SQLAlchemyError "commit") w
    else Return tt (set_session w
                      (mkSession (cur s) (cur s) (unseen_links s) (commit_fails s))).

(** [session.rollback()] *)
Definition session_rollback : M unit :=
  fun w =>
    let s := session w in
    Return tt (set_session w
                 (mkSession (committed s) (committed s) (unseen_links s)
                            (commit_fails s))).

Definition uuid_taken (t : Tables) (u : string) : bool :=
  existsb (fun kv => String.eqb (snd kv) u) (map_to_list (db_nodes t)).

Definition set_dbnode (n : Node) (d : DbNode) : Node :=
  mkNode (_to_be_stored n) d (_attrs_cache n) (_inputlinks_cache n)
         (_temp_folder n).

Definition set_id (d : DbNode) (i : option Z) : DbNode :=
  mkDbNode i (uuid d) (node_type d) (attributes d) (extras d) (nodeversion d).

(** Modelled from the spec: [DbNode.save(commit=False)] (not under src/)
    writes the node's identity to the backend as one unit: a row that has
    no primary key yet receives the next one, and the backend refuses a
    second row with the same uuid. *)
Definition dbnode_save (self : loc) : M unit :=
  fun w =>
    let me := heap w self in
    let t := cur (session w) in
    match id (_dbnode me) with
    | Some i =>
        Return tt (set_session w (set_cur (session w)
          (mkTables (<[i := uuid (_dbnode me)]> (db_nodes t)) (db_links t)
                    (db_paths t) (db_groups t) (db_next_id t))))
    | None =>
        if uuid_taken t (uuid (_dbnode me))
        then Raise (SQLAlchemyError "duplicate uuid") w
        else
          let i := db_next_id t in
          Return tt
            (set_node
               (set_session w (set_cur (session w)
                  (mkTables (<[i := uuid (_dbnode me)]> (db_nodes t))
                            (db_links t) (db_paths t) (db_groups t) (i + 1))))
               self (set_dbnode me (set_id (_dbnode me) (Some i))))
    end.

Definition set_temp_folder (n : Node) (f : option Folder) : Node :=
  mkNode (_to_be_stored n) (_dbnode n) (_attrs_cache n) (_inputlinks_cache n) f.

(** Modelled from the spec: [AbstractNode._get_temp_folder] (not under
    src/): the sandbox folder, whose creation is deferred to its first
    use. *)
Definition _get_temp_folder (self : loc) : M Folder :=
  fun w =>
    let me := heap w self in
    match _temp_folder me with
    | Some f => Return f w
    | None => Return [] (set_node w self (set_temp_folder me (Some [])))
    end.

(** Modelled from the spec: [replace_with_folder(srcdir, move=True,
    overwrite=True)] of the folder classes (not under src/): the
    destination takes the contents of the source, which is moved away.
    Here the permanent folder takes the sandbox. *)
Definition repository_replace_with_temp (self : loc) : M unit :=
  fun w =>
    let me := heap w self in
    if fs_fails w
    then Raise (IOError "replace_with_folder") w
    else
      Return tt
        (set_node
           (set_repository w
              (<[uuid (_dbnode me) := default [] (_temp_folder me)]> (repository w)))
           self (set_temp_folder me (Some []))).

(** The same call in the other direction: the sandbox takes the
    permanent folder. *)
Definition temp_replace_with_repository (self : loc) : M unit :=
  fun w =>
    let me := heap w self in
    if fs_fails w
    then Raise (IOError "replace_with_folder") w
    else
      Return tt
        (set_node
           (set_repository w (delete (uuid (_dbnode me)) (repository w)))
           self
           (set_temp_folder me
              (Some (default [] (repository w !! uuid (_dbnode me)))))).

(** [print] *)
Definition print (line : string) : M unit :=
  fun w => Return tt (set_stdout w (stdout w ++ [line])).

(** ** Storing *)

Definition offending_link (h : loc -> Node)
    (links : list (string * (loc * LinkType))) : option string :=
  fst <$> List.find (fun link => negb (is_stored (h (fst (snd link))))) links.

(** [_check_are_parents_stored]: raise at the first cached link whose
    source is not stored. *)
Definition _check_are_parents_stored (self : loc) : M unit :=
  fun w =>
    match offending_link (heap w) (_inputlinks_cache (heap w self)) with
    | Some _ => Raise (ModificationNotAllowed msg_parent_unstored) w
    | None => Return tt w
    end.

(** The loop [for label in links_to_store:] of
    [_store_cached_input_links]. *)
Fixpoint add_cached_links (self : loc)
    (links : list (string * (loc * LinkType))) : M unit :=
  match links with
  | [] => ret tt
  | (label, (src, link_type)) :: rest =>
      _add_dblink_from self src (Some label) link_type ;;;
      add_cached_links self rest
  end.

Definition set_inputlinks_cache (n : Node)
    (c : list (string * (loc * LinkType))) : Node :=
  mkNode (_to_be_stored n) (_dbnode n) (_attrs_cache n) c (_temp_folder n).

(** [try: session.commit() except SQLAlchemyError: session.rollback()] *)
Definition commit_or_rollback : M unit :=
  try_except session_commit
    (fun e =>
       match e with
       | SQLAlchemyError _ => session_rollback
       | _ => raise e
       end).

Definition _store_cached_input_links (self : loc) (with_transaction : bool)
    : M unit :=
  me <- read_node self ;;
  if _to_be_stored me
  then raise (ModificationNotAllowed msg_not_stored_yet)
  else
    _check_are_parents_stored self ;;;
    add_cached_links self (_inputlinks_cache me) ;;;
    me' <- read_node self ;;
    write_node self (set_inputlinks_cache me' []) ;;;
    if with_transaction then commit_or_rollback else ret tt.

Definition set_attributes (d : DbNode) (a : option (gmap string value))
    : DbNode :=
  mkDbNode (id d) (uuid d) (node_type d) a (extras d) (nodeversion d).

(** [self.dbnode.attributes = self._attrs_cache] followed by
    [del self._attrs_cache]. *)
Definition move_attrs_cache (self : loc) : M unit :=
  me <- read_node self ;;
  match _attrs_cache me with
  | None => raise (AttributeError msg_no_cache)
  | Some c =>
      write_node self
        (mkNode (_to_be_stored me) (set_attributes (_dbnode me) (Some c))
                None (_inputlinks_cache me) (_temp_folder me))
  end.

Definition set_to_be_stored (n : Node) (b : bool) : Node :=
  mkNode b (_dbnode n) (_attrs_cache n) (_inputlinks_cache n) (_temp_folder n).

(** Modelled from the spec: [Group.get_or_create(name, type_string)[0]
    .add_nodes(self)] (the group class is not under src/) attaches the
    node to the group of that name and type, created when absent. *)
Definition group_add_node (name type_string : string) (self : loc) : M unit :=
  fun w =>
    let t := cur (session w) in
    let members := default [] (db_groups t !! (name, type_string)) in
    Return tt
      (set_session w (set_cur (session w)
         (set_groups t
            (<[(name, type_string) := members ++ [uuid (_dbnode (heap w self))]]>
               (db_groups t))))).

Section Store.

(** The class's [_validate] ([AbstractNode] and its subclasses are not
    under src/): the message of the [ValidationError] it raises, if
    any.  [VERDIAUTOGROUP_TYPE] is the constant of
    [aiida.orm.autogroup]. *)
Variable _validate : Node -> option string.
Variable VERDIAUTOGROUP_TYPE : string.

Definition validate (self : loc) : M unit :=
  fun w =>
    match _validate (heap w self) with
    | Some msg => Raise (ValidationError msg) w
    | None => Return tt w
    end.

(** The block "Set up autogrouping used be verdi run". *)
Definition autogroup_hook (self : loc) : M unit :=
  fun w =>
    match current_autogroup w with
    | None => Return tt w
    | Some NotAnAutogroup => Raise (ValidationError msg_not_autogroup) w
    | Some (Autogroup is_to_be_grouped get_group_name) =>
        if is_to_be_grouped (heap w self)
        then
          match get_group_name with
          | Some group_name =>
              group_add_node group_name VERDIAUTOGROUP_TYPE self w
          | None => Return tt w
          end
        else Return tt w
    end.

(** The body of the [try:] of [store]. *)
Definition store_try (self : loc) (with_transaction : bool) : M unit :=
  dbnode_save self ;;;
  move_attrs_cache self ;;;
  (me <- read_node self ;; write_node self (set_temp_folder me None)) ;;;
  (me <- read_node self ;; write_node self (set_to_be_stored me false)) ;;;
  _store_cached_input_links self false ;;;
  if with_transaction
  then
    try_except session_commit
      (fun e =>
         match e with
         | SQLAlchemyError m =>
             print ("Cannot store the node. Original exception: " +:+ m) ;;;
             session_rollback
         | _ => raise e
         end)
  else ret tt.

(** The bare [except:] of [store]: the files go back to the sandbox and
    the exception is raised again. *)
Definition store_except (self : loc) (e : exn) : M unit :=
  _get_temp_folder self ;;;
  temp_replace_with_repository self ;;;
  raise e.

(** [store(with_transaction)] *)
Definition store (self : loc) (with_transaction : bool) : M loc :=
  me <- read_node self ;;
  if _to_be_stored me
  then
    validate self ;;;
    _check_are_parents_stored self ;;;
    _get_temp_folder self ;;;
    repository_replace_with_temp self ;;;
    try_except (store_try self with_transaction) (store_except self) ;;;
    autogroup_hook self ;;;
    ret self
  else ret self.

End Store.

(** ** Attributes and extras *)

(** Modelled from the spec: the helper [get_attr(attrs, key)] of
    [aiida.orm.implementation.sqlalchemy.utils] (not under src/) reads
    the key in the mapping and raises [KeyError] when it is absent; a
    column that holds [None] cannot be subscripted. *)
Definition utils_get_attr (attrs : option (gmap string value)) (key : string)
    : value + exn :=
  match attrs with
  | None => inr (TypeError "'NoneType' object has no attribute '__getitem__'")
  | Some m =>
      match m !! key with
      | Some v => inl v
      | None => inr (KeyError key)
      end
  end.

Definition set_nodeversion (d : DbNode) (v : Z) : DbNode :=
  mkDbNode (id d) (uuid d) (node_type d) (attributes d) (extras d) v.

Definition set_extras (d : DbNode) (e : option (gmap string value)) : DbNode :=
  mkDbNode (id d) (uuid d) (node_type d) (attributes d) e (nodeversion d).

(** [_increment_version_number_db]: the version is bumped and the row
    saved; [DbNode.save()] with its default [commit=True] also commits. *)
Definition _increment_version_number_db (self : loc) : M unit :=
  me <- read_node self ;;
  write_node self
    (set_dbnode me (set_nodeversion (_dbnode me) (nodeversion (_dbnode me) + 1))) ;;;
  dbnode_save self ;;;
  session_commit.

Definition set_attrs_cache (n : Node) (c : option (gmap string value)) : Node :=
  mkNode (_to_be_stored n) (_dbnode n) c (_inputlinks_cache n) (_temp_folder n).

(** Modelled from the spec: [DbNode.set_attr] and [DbNode.set_extra]
    (not under src/) write the key through to the row's mapping. *)
Definition dbnode_set_attr (d : DbNode) (key : string) (v : value) : DbNode :=
  set_attributes d (Some (<[key := v]> (default ∅ (attributes d)))).

Definition dbnode_set_extra (d : DbNode) (key : string) (v : value) : DbNode :=
  set_extras d (Some (<[key := v]> (default ∅ (extras d)))).

(** [_set_attr(key, value)] *)
Definition _set_attr (self : loc) (key : string) (v : value) : M unit :=
  me <- read_node self ;;
  if _to_be_stored me
  then
    match _attrs_cache me with
    | None => raise (AttributeError msg_no_cache)
    | Some c => write_node self (set_attrs_cache me (Some (<[key := deepcopy v]> c)))
    end
  else
    write_node self (set_dbnode me (dbnode_set_attr (_dbnode me) key v)) ;;;
    _increment_version_number_db self.

(** [get_attr(key, default)]; [default = None] stands for the sentinel
    [_NO_DEFAULT]. *)
Definition get_attr (self : loc) (key : string) (default : option value)
    : M value :=
  me <- read_node self ;;
  let exception := AttributeError msg_no_attribute in
  if _to_be_stored me
  then
    match _attrs_cache me with
    | None => raise (AttributeError msg_no_cache)
    | Some c =>
        match c !! key with
        | Some v => ret v
        | None =>
            match default with
            | Some d => ret d
            | None => raise exception
            end
        end
    end
  else
    match utils_get_attr (attributes (_dbnode me)) key with
    | inl v => ret v
    | inr (KeyError _) | inr (IndexError _) =>
        match default with
        | Some d => ret d
        | None => raise exception
        end
    | inr e => raise e
    end.

(** [set_extra(key, value)] *)
Definition set_extra (self : loc) (key : string) (v : value) : M unit :=
  me <- read_node self ;;
  if _to_be_stored me
  then raise (ModificationNotAllowed msg_extras_unstored)
  else
    write_node self (set_dbnode me (dbnode_set_extra (_dbnode me) key v)) ;;;
    _increment_version_number_db self.

(** [reset_extras(new_extras)] *)
Definition reset_extras (self : loc) (new_extras : value) : M unit :=
  match new_extras with
  | VDict items =>
      me <- read_node self ;;
      if _to_be_stored me
      then raise (ModificationNotAllowed msg_extras_unstored)
      else
        write_node self
          (set_dbnode me (set_extras (_dbnode me) (Some (list_to_map items)))) ;;;
        _increment_version_number_db self
  | _ => raise (ValueError "The new extras have to be a dictionary")
  end.

(** [get_extra(key, default=None)]: the default is tested for its truth
    value. *)
Definition get_extra (self : loc) (key : string) (default : value) : M value :=
  me <- read_node self ;;
  match utils_get_attr (extras (_dbnode me)) key with
  | inl v => ret v
  | inr (KeyError _) | inr (IndexError _) =>
      if truthy default then ret default else raise (AttributeError "")
  | inr e => raise e
  end.

Section Extras.

(** [DbNode.del_extra] is not under src/; it is a parameter: the row
    after the deletion, or the exception the row method raises. *)
Variable dbnode_del_extra : DbNode -> string -> DbNode + exn.

(** [del_extra(key)]: handed to the row as it is. *)
Definition del_extra (self : loc) (key : string) : M unit :=
  me <- read_node self ;;
  match dbnode_del_extra (_dbnode me) key with
  | inl d => write_node self (set_dbnode me d)
  | inr e => raise e
  end.

End Extras.

(** ** Auxiliary notions for the statements *)

(** What a call leaves of the heap: [keeps_heap m] says that [m], however
    it ends, has not touched any Python object. *)
Definition left_by {A} (o : outcome A) (P : World -> Prop) : Prop :=
  match o with
  | Return _ w' => P w'
  | Raise _ w' => P w'
  | OutOfFuel => True
  end.

Definition keeps_heap {A} (m : M A) : Prop :=
  forall w, left_by (m w) (fun w' => heap w' = heap w).

(** The value a call returns, the exception it raises, and the world it
    leaves. *)
Definition returned {A} (o : outcome A) : option A :=
  match o with
  | Return a _ => Some a
  | _ => None
  end.

Definition raised {A} (o : outcome A) : option exn :=
  match o with
  | Raise e _ => Some e
  | _ => None
  end.

Definition world_after {A} (o : outcome A) : option World :=
  match o with
  | Return _ w => Some w
  | Raise _ w => Some w
  | OutOfFuel => None
  end.

(** The row that [_do_create_link] builds. *)
Definition link_row (w : World) (self src : loc) (l : string)
    (link_type : LinkType) : DbLink :=
  mkDbLink (id (_dbnode (heap w src))) (id (_dbnode (heap w self))) l link_type.

(** ** Concrete nodes and worlds *)

(** A node loaded from the row with primary key [i]. *)
Definition stored_node (i : Z) (u : string) : Node :=
  mkNode false (mkDbNode (Some i) u "data.Data." (Some ∅) (Some ∅) 1) None [] None.

(** A node as the constructor leaves it, with the attributes set and the
    links cached since, and the files staged in its sandbox. *)
Definition fresh_node (u : string) (attrs : gmap string value)
    (links : list (string * (loc * LinkType))) (files : Folder) : Node :=
  mkNode true (mkDbNode None u "data.Data." (Some ∅) (Some ∅) 1) (Some attrs)
         links (Some files).

(** A heap with [a] at location 0 and [b] everywhere else. *)
Definition two_nodes (a b : Node) : loc -> Node :=
  fun r => match r with O => a | S _ => b end.

Definition tables_of (nodes : list (Z * string)) (links : list DbLink)
    (paths : list (Z * Z)) (next_id : Z) : Tables :=
  mkTables (list_to_map nodes) links paths ∅ next_id.

(** A world with a healthy backend and file system, nothing committed by
    others, and no autogroup. *)
Definition quiet_world (h : loc -> Node) (t : Tables) : World :=
  mkWorld h (mkSession t t [] false) ∅ false None (fun _ => VNone) [].

(** Stored nodes A (pk 1, at location 0) and B (pk 2, at location 1) with
    the input link A -> B in the link table; the closure table holds the
    paths given. *)
Definition forward_link : DbLink := mkDbLink (Some 1) (Some 2) "forward" INPUT.

Definition linked_world (paths : list (Z * Z)) : World :=
  quiet_world (two_nodes (stored_node 1 "uuid-A") (stored_node 2 "uuid-B"))
              (tables_of [(1, "uuid-A"); (2, "uuid-B")] [forward_link] paths 3).

(** An unstored node alone in the world. *)
Definition lone_fresh_world : World :=
  quiet_world (fun _ => fresh_node "uuid-N" ∅ [] []) (tables_of [] [] [] 1).


(** The same two nodes, no link seen yet, and a hundred concurrent
    writers that have taken [link_1] to [link_100] on B. *)
Definition contended_world : World :=
  mkWorld (two_nodes (stored_node 1 "uuid-A") (stored_node 2 "uuid-B"))
    (mkSession
       (tables_of [(1, "uuid-A"); (2, "uuid-B")] [] [] 3)
       (tables_of [(1, "uuid-A"); (2, "uuid-B")] [] [] 3)
       (List.map (fun n => mkDbLink (Some 1) (Some 2) (autolabel (Z.of_nat n)) INPUT)
                 (seq 1 100))
       false)
    ∅ false None (fun _ => VNone) [].

(** Two unstored nodes: A at location 0, and B at location 1 with the
    cached input link [parent] from A. *)
Definition orphan_world : World :=
  quiet_world
    (two_nodes (fresh_node "uuid-A" ∅ [] [])
               (fresh_node "uuid-B" ∅ [("parent", (0%nat, INPUT))] []))
    (tables_of [] [] [] 1).

(** A node object A (pk 1, location 0) loaded earlier, whose row is no
    longer in the node table, and an unstored node B (location 1) with
    the attribute [x = 1], the staged file [f.txt] and the cached input
    link [parent] from A. *)
Definition dangling_parent_world : World :=
  quiet_world
    (two_nodes (stored_node 1 "uuid-A")
               (fresh_node "uuid-B" (<["x" := VInt 1]> ∅)
                           [("parent", (0%nat, INPUT))] ["f.txt"]))
    (tables_of [] [] [] 2).

(** The stored node A (location 0) and an unstored node B (location 1)
    with the attribute [x = 1], the staged file [f.txt] and the cached
    input link [parent] from A. *)
Definition ready_world : World :=
  quiet_world
    (two_nodes (stored_node 1 "uuid-A")
               (fresh_node "uuid-B" (<["x" := VInt 1]> ∅)
                           [("parent", (0%nat, INPUT))] ["f.txt"]))
    (tables_of [(1, "uuid-A")] [] [] 2).

(** A validator that accepts every node, and one that asks for the
    attribute [x]. *)
Definition accept_all (n : Node) : option string := None.

Definition require_x (n : Node) : option string :=
  match _attrs_cache n with
  | Some c => if bool_decide (is_Some (c !! "x")) then None else Some "x is missing"
  | None => None
  end.

(** ** Replacing a link *)

(** The rows left once the first row that bears the label is deleted. *)
Fixpoint remove_first_labelled (l : string) (links : list DbLink)
    : list DbLink :=
  match links with
  | [] => []
  | r :: rest =>
      if String.eqb (label r) l then rest
      else r :: remove_first_labelled l rest
  end.

(** [_remove_dblink_from(label)]: the query
    [DbLink.query.filter_by(label=label).first()] filters on the label
    alone, whatever the destination; the row found, if any, is deleted.
    No row has the label [None]. *)
Definition _remove_dblink_from (self : loc) (label : option string) : M unit :=
  fun w =>
    match label with
    | None => Return tt w
    | Some l =>
        let t := cur (session w) in
        Return tt (set_session w (set_cur (session w)
                     (set_links t (remove_first_labelled l (db_links t)))))
    end.

(** [_replace_dblink_from(src, label, link_type)]: the first attempt
    calls [_add_dblink_from(src, label)], that is with the default
    [link_type=LinkType.UNSPECIFIED]; only the retry after a
    [UniquenessError] passes [link_type] on. *)
Definition _replace_dblink_from (self src : loc) (label : option string)
    (link_type : LinkType) : M unit :=
  try_except (_add_dblink_from self src label UNSPECIFIED)
    (fun e =>
       match e with
       | UniquenessError _ =>
           try_except
             (_remove_dblink_from self label ;;;
              _add_dblink_from self src label link_type ;;;
              session_commit)
             (fun e' => session_rollback ;;; raise e')
       | _ => raise e
       end).

(** ** Deleting an attribute *)

Section Attributes.

(** [DbNode.del_attr] is not under src/; it is a parameter: the row
    after the deletion, or the exception the row method raises. *)
Variable dbnode_del_attr : DbNode -> string -> DbNode + exn.

(** [_del_attr(key)] *)
Definition _del_attr (self : loc) (key : string) : M unit :=
  me <- read_node self ;;
  if _to_be_stored me
  then
    match _attrs_cache me with
    | None => raise (AttributeError msg_no_cache)
    | Some c =>
        match c !! key with
        | Some _ => write_node self (set_attrs_cache me (Some (delete key c)))
        | None => raise (AttributeError msg_no_attribute)
        end
    end
  else
    match dbnode_del_attr (_dbnode me) key with
    | inl d =>
        write_node self (set_dbnode me d) ;;;
        _increment_version_number_db self
    | inr e => raise e
    end.

End Attributes.

(** ** Storing a node with its parents *)

Definition msg_already_stored : string := "Node was already stored".
Definition msg_grandparents : string :=
  "Parent node has unstored parents, cannot proceed (only direct parents can be unstored and will be stored by store_all, not grandparents or other ancestors".
Definition msg_store_input_nodes : string :=
  "_store_input_nodes can be called only if the node is unstored".

(** The first loop of [store_all]: every parent must have its own
    parents stored; the [ModificationNotAllowed] of the parent's check is
    replaced by one that names the parent. *)
Fixpoint check_grandparents (links : list (string * (loc * LinkType)))
    : M unit :=
  match links with
  | [] => ret tt
  | (_, (parent_node, _)) :: rest =>
      try_except (_check_are_parents_stored parent_node)
        (fun e =>
           match e with
           | ModificationNotAllowed _ =>
               raise (ModificationNotAllowed msg_grandparents)
           | _ => raise e
           end) ;;;
      check_grandparents rest
  end.

Section StoreAll.

Variable _validate : Node -> option string.
Variable VERDIAUTOGROUP_TYPE : string.

(** The loop of [_store_input_nodes]: each parent that is not stored yet
    is stored, without a transaction of its own. *)
Fixpoint store_parents (links : list (string * (loc * LinkType))) : M unit :=
  match links with
  | [] => ret tt
  | (_, (parent, _)) :: rest =>
      p <- read_node parent ;;
      (if is_stored p then ret tt
       else store _validate VERDIAUTOGROUP_TYPE parent false ;;; ret tt) ;;;
      store_parents rest
  end.

(** [_store_input_nodes] *)
Definition _store_input_nodes (self : loc) : M unit :=
  me <- read_node self ;;
  if _to_be_stored me
  then store_parents (_inputlinks_cache me)
  else raise (ModificationNotAllowed msg_store_input_nodes).

(** [store_all(with_transaction)] *)
Definition store_all (self : loc) (with_transaction : bool) : M loc :=
  me <- read_node self ;;
  if _to_be_stored me
  then
    check_grandparents (_inputlinks_cache me) ;;;
    _store_input_nodes self ;;;
    store _validate VERDIAUTOGROUP_TYPE self false ;;;
    _store_cached_input_links self false ;;;
    (if with_transaction then commit_or_rollback else ret tt) ;;;
    ret self
  else raise (ModificationNotAllowed msg_already_stored).

End StoreAll.

(** ** Further notions for the statements *)

(** [m] changes nothing but the session. *)
Definition session_only {A} (m : M A) : Prop :=
  forall w, left_by (m w) (fun w' => w' = set_session w (session w')).

(** [m], however it ends, leaves a world related by [R] to the one it
    started in. *)
Definition respects {A} (R : World -> World -> Prop) (m : M A) : Prop :=
  forall w, left_by (m w) (R w).

(** Every node that was stored is still stored. *)
Definition stored_kept (w w' : World) : Prop :=
  forall r, _to_be_stored (heap w r) = false -> _to_be_stored (heap w' r) = false.

(** Among the Python objects only the one at [self] may have changed; it
    has kept its uuid, and is still stored if it was. *)
Definition local_to (self : loc) (w w' : World) : Prop :=
  (forall r, r <> self -> heap w' r = heap w r) /\
  uuid (_dbnode (heap w' self)) = uuid (_dbnode (heap w self)) /\
  (_to_be_stored (heap w self) = false -> _to_be_stored (heap w' self) = false).

(** The permanent repository is as it was. *)
Definition same_repository (w w' : World) : Prop := repository w' = repository w.

(** The relations the frame lemmas are about: reflexive, transitive, and
    blind to the session and to the output. *)
Definition frame_relation (R : World -> World -> Prop) : Prop :=
  (forall w, R w w) /\
  (forall a b c, R a b -> R b c -> R a c) /\
  (forall w s, R w (set_session w s)) /\
  (forall w out, R w (set_stdout w out)).

(** Two different stored nodes. *)
Definition linkable (w : World) (self src : loc) : Prop :=
  uuid (_dbnode (heap w self)) <> uuid (_dbnode (heap w src)) /\
  _to_be_stored (heap w self) = false /\
  _to_be_stored (heap w src) = false.

(** The rows that the flush of a link cache writes, in its order. *)
Definition cached_rows (w : World) (self : loc)
    (links : list (string * (loc * LinkType))) : list DbLink :=
  List.map (fun link => link_row w self (fst (snd link)) (fst link) (snd (snd link)))
           links.

(** The world with the rows appended to the link table of the session. *)
Definition append_links (w : World) (rows : list DbLink) : World :=
  set_session w (set_cur (session w)
    (set_links (cur (session w)) (db_links (cur (session w)) ++ rows))).

(** A stored node (pk [i]) that still has links in its cache. *)
Definition stored_node_with_links (i : Z) (u : string)
    (links : list (string * (loc * LinkType))) : Node :=
  mkNode false (mkDbNode (Some i) u "data.Data." (Some ∅) (Some ∅) 1) None links None.

(** The stored nodes A (pk 1, location 0) and B (pk 2, location 1), the
    link A -> B labelled [forward] in the table, and the given links
    from A waiting in the cache of B. *)
Definition pending_world (links : list (string * (loc * LinkType))) : World :=
  quiet_world
    (two_nodes (stored_node 1 "uuid-A") (stored_node_with_links 2 "uuid-B" links))
    (tables_of [(1, "uuid-A"); (2, "uuid-B")] [forward_link] [] 3).

(** Three unstored nodes in a chain: G (location 0) is the cached parent
    of A (location 1), which is the cached parent of B (every other
    location). *)
Definition chain_world : World :=
  quiet_world
    (fun r =>
       match r with
       | O => fresh_node "uuid-G" ∅ [] []
       | S O => fresh_node "uuid-A" ∅ [("in", (0%nat, INPUT))] []
       | _ => fresh_node "uuid-B" ∅ [("parent", (1%nat, INPUT))] []
       end)
    (tables_of [] [] [] 1).

(** The stored nodes A (pk 1, location 0) and B (pk 2, location 1) and a
    third row C (pk 3); the label [data] is used by a link into C, which
    comes first in the table, and by a link into B. *)
Definition shared_label_world : World :=
  quiet_world (two_nodes (stored_node 1 "uuid-A") (stored_node 2 "uuid-B"))
    (tables_of [(1, "uuid-A"); (2, "uuid-B"); (3, "uuid-C")]
       [mkDbLink (Some 1) (Some 3) "data" INPUT;
        mkDbLink (Some 1) (Some 2) "data" INPUT] [] 4).

(** What a commit would do is as it was: the last committed state, the
    backend's answer to a commit, the rows of the concurrent writers;
    and nothing more has been printed. *)
Definition commit_state_kept (w w' : World) : Prop :=
  committed (session w') = committed (session w) /\
  commit_fails (session w') = commit_fails (session w) /\
  unseen_links (session w') = unseen_links (session w) /\
  stdout w' = stdout w.

(** The line [store] prints when the commit fails. *)
Definition msg_cannot_store : string :=
  "Cannot store the node. Original exception: commit".

(** [m] ends, by returning or by raising, in every world. *)
Definition terminates {A} (m : M A) : Prop := forall w, m w <> OutOfFuel.

(** * Properties *)

(** ** The heap *)

Lemma update_eq (h : loc -> Node) (self : loc) (n : Node) :
  update h self n self = n.
Proof. unfold update. now rewrite Nat.eqb_refl. Qed.

Lemma update_ne (h : loc -> Node) (self other : loc) (n : Node) :
  other <> self -> update h self n other = h other.
Proof.
  intros Hne. unfold update.
  destruct (Nat.eqb other self) eqn:E; [| reflexivity].
  apply Nat.eqb_eq in E. contradiction.
Qed.


Lemma keeps_heap_ret {A} (a : A) : keeps_heap (ret a).
Proof. intros w. reflexivity. Qed.

Lemma keeps_heap_raise {A} (e : exn) : keeps_heap (@raise A e).
Proof. intros w. reflexivity. Qed.

Lemma keeps_heap_bind {A B} (m : M A) (f : A -> M B) :
  keeps_heap m -> (forall a, keeps_heap (f a)) -> keeps_heap (bind m f).
Proof.
  intros Hm Hf w. unfold bind. specialize (Hm w).
  destruct (m w) as [a w1 | e w1 |]; simpl in *; [| assumption | exact I].
  specialize (Hf a w1). destruct (f a w1); simpl in *; congruence.
Qed.

Lemma keeps_heap_try {A} (m : M A) (h : exn -> M A) :
  keeps_heap m -> (forall e, keeps_heap (h e)) -> keeps_heap (try_except m h).
Proof.
  intros Hm Hh w. unfold try_except. specialize (Hm w).
  destruct (m w) as [a w1 | e w1 |]; simpl in *; [assumption | | exact I].
  specialize (Hh e w1). destruct (h e w1); simpl in *; congruence.
Qed.

Lemma keeps_heap_read (self : loc) : keeps_heap (read_node self).
Proof. intros w. reflexivity. Qed.

Lemma keeps_heap_do_create_link self src l link_type :
  keeps_heap (_do_create_link self src l link_type).
Proof.
  intros w. unfold _do_create_link.
  destruct (insert_link _ _); reflexivity.
Qed.

Lemma keeps_heap_autolabel_loop fuel self src link_type :
  forall safety_counter autolabel_idx,
    keeps_heap (autolabel_loop fuel self src link_type safety_counter autolabel_idx).
Proof.
  induction fuel as [| fuel IH]; intros sc idx.
  - intros w. exact I.
  - simpl. destruct (sc + 1 >? 100).
    + apply keeps_heap_raise.
    + apply keeps_heap_try.
      * apply keeps_heap_do_create_link.
      * intros e. destruct e; try apply keeps_heap_raise. apply IH.
Qed.

Lemma keeps_heap_add_autolabelled self src link_type :
  keeps_heap (add_autolabelled self src link_type).
Proof.
  intros w. unfold add_autolabelled.
  destruct (skip_existing _ _ _); [| exact I].
  apply keeps_heap_autolabel_loop.
Qed.

Lemma keeps_heap_check_cycle self src link_type :
  keeps_heap (check_cycle self src link_type).
Proof.
  intros w. unfold check_cycle.
  destruct (is_strong link_type); [| reflexivity].
  destruct (path_exists _ _ _); reflexivity.
Qed.

Lemma keeps_heap_add_dblink_from self src l link_type :
  keeps_heap (_add_dblink_from self src l link_type).
Proof.
  unfold _add_dblink_from.
  apply keeps_heap_bind; [apply keeps_heap_read |]. intros me.
  apply keeps_heap_bind; [apply keeps_heap_read |]. intros source.
  destruct (String.eqb _ _); [apply keeps_heap_raise |].
  destruct (_to_be_stored me); [apply keeps_heap_raise |].
  destruct (_to_be_stored source); [apply keeps_heap_raise |].
  apply keeps_heap_bind; [apply keeps_heap_check_cycle |]. intros _.
  destruct l.
  - apply keeps_heap_do_create_link.
  - apply keeps_heap_add_autolabelled.
Qed.

Lemma keeps_heap_add_cached_links self links :
  keeps_heap (add_cached_links self links).
Proof.
  induction links as [| [l [src link_type]] rest IH]; simpl.
  - apply keeps_heap_ret.
  - apply keeps_heap_bind; [apply keeps_heap_add_dblink_from |].
    intros _. exact IH.
Qed.

Lemma keeps_heap_commit : keeps_heap session_commit.
Proof.
  intros w. unfold session_commit. destruct (commit_fails _); reflexivity.
Qed.

Lemma keeps_heap_rollback : keeps_heap session_rollback.
Proof. intros w. reflexivity. Qed.

Lemma keeps_heap_commit_or_rollback : keeps_heap commit_or_rollback.
Proof.
  apply keeps_heap_try; [apply keeps_heap_commit |].
  intros e. destruct e; try apply keeps_heap_raise. apply keeps_heap_rollback.
Qed.

Lemma keeps_heap_print line : keeps_heap (print line).
Proof. intros w. reflexivity. Qed.

Lemma keeps_heap_check_parents self : keeps_heap (_check_are_parents_stored self).
Proof.
  intros w. unfold _check_are_parents_stored.
  destruct (offending_link _ _); reflexivity.
Qed.

Lemma keeps_heap_autogroup_hook T self : keeps_heap (autogroup_hook T self).
Proof.
  intros w. unfold autogroup_hook.
  destruct (current_autogroup w) as [[| f name] |]; try reflexivity.
  destruct (f _); [| reflexivity].
  destruct name; reflexivity.
Qed.

(** ** The backend constraints *)

Lemma option_Z_eqb_eq (a b : option Z) :
  option_Z_eqb a b = true <-> exists k, a = Some k /\ b = Some k.
Proof.
  destruct a as [x |], b as [y |]; simpl; split;
    try discriminate; try (intros (k & Ha & Hb); discriminate).
  - intros H. apply Z.eqb_eq in H. subst. eauto.
  - intros (k & Ha & Hb). inversion Ha. inversion Hb. subst. apply Z.eqb_refl.
Qed.

Lemma same_dest_label_spec (a b : DbLink) :
  same_dest_label a b = true <->
  (exists k, output_id a = Some k /\ output_id b = Some k) /\ label a = label b.
Proof.
  unfold same_dest_label. rewrite andb_true_iff, option_Z_eqb_eq, String.eqb_eq.
  reflexivity.
Qed.

Lemma insert_link_Some (s s' : Session) (row : DbLink) :
  insert_link s row = Some s' ->
  link_insert_allowed s row = true /\
  s' = set_cur s (set_links (cur s) (db_links (cur s) ++ [row])).
Proof.
  unfold insert_link. destruct (link_insert_allowed s row); [| discriminate].
  intros H. inversion H. split; reflexivity.
Qed.

(** A row that has just been written bars every later row with the same
    destination and label. *)
Lemma insert_link_then_clash (s s' : Session) (row row' : DbLink) :
  insert_link s row = Some s' ->
  output_id row' = output_id row -> label row' = label row ->
  insert_link s' row' = None.
Proof.
  intros Hins Hout Hlab.
  apply insert_link_Some in Hins as [Hok ->].
  unfold link_insert_allowed in Hok.
  apply andb_true_iff in Hok as [Hok _].
  apply andb_true_iff in Hok as [_ Hdest].
  unfold insert_link, link_insert_allowed. simpl.
  assert (Hclash : existsb (same_dest_label row')
                     ((db_links (cur s) ++ [row]) ++ unseen_links s) = true).
  { apply existsb_exists. exists row. split.
    - apply in_or_app. left. apply in_or_app. right. now left.
    - apply same_dest_label_spec. split; [| assumption].
      rewrite Hout. unfold row_exists in Hdest.
      destruct (output_id row) as [k |]; [eauto | discriminate]. }
  rewrite Hclash. now rewrite andb_false_r.
Qed.

(** ** Self links (C6) *)

(** C6: an attempt to commit a link whose source and destination are the
    same node (the two objects carry the same uuid) fails with
    SelfLinkError, [ValueError("Cannot link to itself")], and leaves the
    world as it was.  Nothing is assumed about the storage flags or the
    closure table: the test comes before the storedness and the cycle
    checks, so it decides for stored and unstored nodes alike. *)
Theorem self_link_rejected_first (w : World) (self src : loc)
    (l : option string) (link_type : LinkType) :
  uuid (_dbnode (heap w self)) = uuid (_dbnode (heap w src)) ->
  _add_dblink_from self src l link_type w = Raise SelfLinkError w.
Proof.
  intros Huuid. unfold _add_dblink_from, bind, read_node.
  rewrite Huuid, String.eqb_refl. reflexivity.
Qed.

Lemma self_link_rejected_first_witness :
  _to_be_stored (heap orphan_world 0%nat) = true /\
  _add_dblink_from 0%nat 0%nat (Some "loop") INPUT orphan_world =
    Raise SelfLinkError orphan_world /\
  _to_be_stored (heap (linked_world [(1, 1)]) 0%nat) = false /\
  _add_dblink_from 0%nat 0%nat None CREATE (linked_world [(1, 1)]) =
    Raise SelfLinkError (linked_world [(1, 1)]).
Proof.
  split; [reflexivity |]. split.
  - apply (self_link_rejected_first orphan_world 0%nat 0%nat). reflexivity.
  - split; [reflexivity |].
    apply (self_link_rejected_first (linked_world [(1, 1)]) 0%nat 0%nat). reflexivity.
Defined.

(** ** Duplicate labels (C7) *)


Lemma do_create_link_Return w self src l link_type s' :
  insert_link (session w) (link_row w self src l link_type) = Some s' ->
  _do_create_link self src l link_type w = Return tt (set_session w s').
Proof. intros H. unfold _do_create_link. fold (link_row w self src l link_type). now rewrite H. Qed.

Lemma do_create_link_Raise w self src l link_type :
  insert_link (session w) (link_row w self src l link_type) = None ->
  _do_create_link self src l link_type w = Raise DuplicateLinkError w.
Proof. intros H. unfold _do_create_link. fold (link_row w self src l link_type). now rewrite H. Qed.

(** C7: two insertions onto the same destination [self] that ask for the
    same label [l].  When the backend accepts the first row (both
    endpoints have rows and no link of [self] bears [l] yet), the first
    call returns with exactly that row appended, and the second call
    fails with DuplicateLinkError ([UniquenessError]): its nested
    transaction is rolled back, so the world is the one the first call
    left. *)
Theorem second_insert_same_label_duplicate (w : World) (self src1 src2 : loc)
    (l : string) (t1 t2 : LinkType) :
  link_insert_allowed (session w) (link_row w self src1 l t1) = true ->
  exists w1,
    _do_create_link self src1 l t1 w = Return tt w1 /\
    db_links (cur (session w1)) =
      db_links (cur (session w)) ++ [link_row w self src1 l t1] /\
    _do_create_link self src2 l t2 w1 = Raise DuplicateLinkError w1.
Proof.
  intros Hok.
  set (row := link_row w self src1 l t1).
  set (s' := set_cur (session w)
               (set_links (cur (session w)) (db_links (cur (session w)) ++ [row]))).
  assert (Hins : insert_link (session w) row = Some s').
  { unfold insert_link. fold row in Hok. now rewrite Hok. }
  exists (set_session w s'). split; [| split].
  - now apply do_create_link_Return.
  - reflexivity.
  - apply do_create_link_Raise.
    eapply insert_link_then_clash; [exact Hins | reflexivity | reflexivity].
Qed.

Lemma second_insert_same_label_duplicate_witness :
  exists w1,
    _do_create_link 1%nat 0%nat "data" INPUT (linked_world []) = Return tt w1 /\
    db_links (cur (session w1)) =
      [forward_link; mkDbLink (Some 1) (Some 2) "data" INPUT] /\
    _do_create_link 1%nat 0%nat "data" UNSPECIFIED w1 = Raise DuplicateLinkError w1.
Proof.
  destruct (second_insert_same_label_duplicate (linked_world []) 1%nat 0%nat 0%nat
              "data" INPUT UNSPECIFIED) as (w1 & H1 & H2 & H3).
  - vm_compute. reflexivity.
  - exists w1. split; [exact H1 |]. split; [| exact H3].
    rewrite H2. reflexivity.
Defined.

(** ** Cycles (C4) *)

(** The checks of [_add_dblink_from] that precede the cycle check all
    pass for two distinct stored nodes. *)
Lemma add_dblink_from_stored (w : World) (self src : loc) (l : option string)
    (link_type : LinkType) :
  uuid (_dbnode (heap w self)) <> uuid (_dbnode (heap w src)) ->
  _to_be_stored (heap w self) = false ->
  _to_be_stored (heap w src) = false ->
  _add_dblink_from self src l link_type w =
    bind (check_cycle self src link_type)
         (fun _ => match l with
                   | None => add_autolabelled self src link_type
                   | Some l' => _do_create_link self src l' link_type
                   end) w.
Proof.
  intros Hne Hself Hsrc. unfold _add_dblink_from at 1. unfold bind at 1 2, read_node.
  apply String.eqb_neq in Hne. rewrite Hne, Hself, Hsrc. reflexivity.
Qed.

(** C4, counterexample: A and B are stored and the input link A -> B is
    in the link table, but the closure table is empty (the transitive
    closure is not enabled); the input link B -> A is then committed, no
    CycleError is raised. *)
Lemma strong_back_link_accepted_without_closure :
  let w := linked_world [] in
  In forward_link (db_links (cur (session w))) /\
  input_id forward_link = id (_dbnode (heap w 0%nat)) /\
  output_id forward_link = id (_dbnode (heap w 1%nat)) /\
  is_strong (type forward_link) = true /\
  is_stored (heap w 0%nat) = true /\ is_stored (heap w 1%nat) = true /\
  exists w',
    _add_dblink_from 0%nat 1%nat (Some "back") INPUT w = Return tt w' /\
    db_links (cur (session w')) =
      [forward_link; mkDbLink (Some 2) (Some 1) "back" INPUT].
Proof.
  cbv zeta. repeat (split; [first [now left | reflexivity] |]).
  eexists. split; vm_compute; reflexivity.
Qed.

(** C4, as the code has it: let A and B be distinct stored nodes and
    consider the commit of a link B -> A.  For a strong type (creation or
    input) the commit fails with CycleError, the world untouched,
    whenever the closure table [DbPath] holds a path from A to B; the
    link table itself is not consulted.  For any other type no cycle
    check is made: the call is the label assignment and insert alone,
    and with an explicit label that the backend accepts it returns. *)
Theorem back_link_checked_against_closure (w : World) (a b : loc)
    (l : option string) (link_type : LinkType) :
  uuid (_dbnode (heap w a)) <> uuid (_dbnode (heap w b)) ->
  _to_be_stored (heap w a) = false ->
  _to_be_stored (heap w b) = false ->
  (is_strong link_type = true ->
   path_exists (cur (session w)) (id (_dbnode (heap w a)))
               (id (_dbnode (heap w b))) = true ->
   _add_dblink_from a b l link_type w = Raise CycleError w) /\
  (is_strong link_type = false ->
   _add_dblink_from a b l link_type w =
     match l with
     | None => add_autolabelled a b link_type w
     | Some l' => _do_create_link a b l' link_type w
     end) /\
  (is_strong link_type = false ->
   forall l',
     link_insert_allowed (session w) (link_row w a b l' link_type) = true ->
     exists w', _add_dblink_from a b (Some l') link_type w = Return tt w').
Proof.
  intros Hne Ha Hb.
  assert (Hweak : is_strong link_type = false ->
                  forall l0, _add_dblink_from a b l0 link_type w =
                    match l0 with
                    | None => add_autolabelled a b link_type w
                    | Some l' => _do_create_link a b l' link_type w
                    end).
  { intros Hs l0. rewrite add_dblink_from_stored by assumption.
    unfold bind, check_cycle. rewrite Hs. now destruct l0. }
  split; [| split].
  - intros Hs Hpath. rewrite add_dblink_from_stored by assumption.
    unfold bind, check_cycle. rewrite Hs, Hpath. reflexivity.
  - intros Hs. now apply Hweak.
  - intros Hs l' Hok. rewrite (Hweak Hs (Some l')).
    unfold _do_create_link. fold (link_row w a b l' link_type).
    unfold insert_link. rewrite Hok. eauto.
Qed.

Lemma back_link_checked_against_closure_witness :
  let w := linked_world [(1, 2)] in
  _add_dblink_from 0%nat 1%nat (Some "back") INPUT w = Raise CycleError w /\
  exists w', _add_dblink_from 0%nat 1%nat (Some "back") UNSPECIFIED w = Return tt w'.
Proof.
  cbv zeta.
  assert (Hne : uuid (_dbnode (heap (linked_world [(1, 2)]) 0%nat)) <>
                uuid (_dbnode (heap (linked_world [(1, 2)]) 1%nat)))
    by (vm_compute; discriminate).
  split.
  - apply (back_link_checked_against_closure (linked_world [(1, 2)]) 0%nat 1%nat
             (Some "back") INPUT Hne eq_refl eq_refl); reflexivity.
  - apply (back_link_checked_against_closure (linked_world [(1, 2)]) 0%nat 1%nat
             (Some "back") UNSPECIFIED Hne eq_refl eq_refl); [reflexivity |].
    vm_compute. reflexivity.
Defined.

(** ** Extras (C9, C10) *)

(** C9, counterexample: on an unstored node [get_extra] reads the extras
    column like on a stored one; with a default it returns the default,
    and no ModificationNotAllowed is raised. *)
Lemma get_extra_unstored_returns_default :
  _to_be_stored (heap lone_fresh_world 0%nat) = true /\
  get_extra 0%nat "k" (VInt 7) lone_fresh_world = Return (VInt 7) lone_fresh_world.
Proof. split; vm_compute; reflexivity. Qed.

(** C9, as the code has it: on an unstored node [set_extra] (and
    [reset_extras]) fail with ModificationNotAllowed and change nothing;
    [get_extra] never raises ModificationNotAllowed, whatever the key and
    the default; [del_extra] has no check of its own, it raises
    ModificationNotAllowed only if the row's [del_extra] does. *)
Theorem extras_on_unstored_node (dbnode_del_extra : DbNode -> string -> DbNode + exn)
    (w : World) (self : loc) (key : string) :
  _to_be_stored (heap w self) = true ->
  (forall v,
     set_extra self key v w = Raise (ModificationNotAllowed msg_extras_unstored) w) /\
  (forall items,
     reset_extras self (VDict items) w =
       Raise (ModificationNotAllowed msg_extras_unstored) w) /\
  (forall default msg w',
     get_extra self key default w <> Raise (ModificationNotAllowed msg) w') /\
  ((forall msg, dbnode_del_extra (_dbnode (heap w self)) key
                <> inr (ModificationNotAllowed msg)) ->
   forall msg w',
     del_extra dbnode_del_extra self key w <> Raise (ModificationNotAllowed msg) w').
Proof.
  intros Hflag. repeat split.
  - intros v. unfold set_extra, bind, read_node. now rewrite Hflag.
  - intros items. unfold reset_extras, bind, read_node. now rewrite Hflag.
  - intros default msg w'. unfold get_extra, bind, read_node, utils_get_attr.
    destruct (extras (_dbnode (heap w self))) as [m |]; [| discriminate].
    destruct (m !! key); [discriminate |].
    destruct (truthy default); discriminate.
  - intros Hrow msg w'. unfold del_extra, bind, read_node.
    destruct (dbnode_del_extra (_dbnode (heap w self)) key) as [d | e] eqn:E.
    + discriminate.
    + unfold raise. intros H. inversion H. subst. now apply (Hrow msg).
Qed.

Lemma extras_on_unstored_node_witness :
  set_extra 0%nat "k" (VInt 7) lone_fresh_world =
    Raise (ModificationNotAllowed msg_extras_unstored) lone_fresh_world.
Proof.
  apply (extras_on_unstored_node (fun d _ => inl d) lone_fresh_world 0%nat "k" eq_refl).
Defined.

(** C10: on a stored node whose extras lack the key, [get_extra] returns
    the default when the default is truthy and raises AttributeError when
    it is falsy; 0, False, the empty string (and None, the default of the
    parameter) are falsy, so they are never returned.  The world is left
    as it was. *)
Theorem get_extra_default_by_truth_value (w : World) (self : loc) (key : string)
    (default : value) (m : gmap string value) :
  _to_be_stored (heap w self) = false ->
  extras (_dbnode (heap w self)) = Some m ->
  m !! key = None ->
  (truthy default = true -> get_extra self key default w = Return default w) /\
  (truthy default = false ->
   get_extra self key default w = Raise (AttributeError "") w) /\
  truthy (VInt 0) = false /\ truthy (VBool false) = false /\
  truthy (VStr "") = false /\ truthy VNone = false.
Proof.
  intros _ Hextras Hkey.
  unfold get_extra, bind, read_node, utils_get_attr. rewrite Hextras, Hkey.
  repeat split; try reflexivity; intros ->; reflexivity.
Qed.

Lemma get_extra_default_by_truth_value_witness :
  let w := linked_world [] in
  get_extra 0%nat "k" (VInt 0) w = Raise (AttributeError "") w /\
  get_extra 0%nat "k" (VStr "fallback") w = Return (VStr "fallback") w.
Proof.
  cbv zeta.
  pose proof (get_extra_default_by_truth_value (linked_world []) 0%nat "k"
                (VInt 0) ∅ eq_refl eq_refl eq_refl) as (_ & H0 & _).
  pose proof (get_extra_default_by_truth_value (linked_world []) 0%nat "k"
                (VStr "fallback") ∅ eq_refl eq_refl eq_refl) as (H1 & _).
  split; [apply H0 | apply H1]; reflexivity.
Defined.

(** ** Automatic labels (C5) *)

Lemma autolabel_inj (a b : Z) : autolabel a = autolabel b -> a = b.
Proof.
  unfold autolabel. intros H. simpl in H. inversion H as [H'].
  exact (inj pretty _ _ H').
Qed.


Lemma label_in_In (l : string) (existing : list string) :
  label_in l existing = true <-> In l existing.
Proof.
  unfold label_in. rewrite existsb_exists. split.
  - intros (x & Hin & Heq). apply String.eqb_eq in Heq. now subst.
  - intros Hin. exists l. split; [assumption | apply String.eqb_refl].
Qed.


Lemma skip_existing_None (fuel : nat) (existing : list string) :
  forall idx,
    skip_existing fuel existing idx = None ->
    forall k, (k < fuel)%nat ->
      label_in (autolabel (idx + Z.of_nat k)) existing = true.
Proof.
  induction fuel as [| fuel IH]; intros idx Hnone k Hk; [lia |].
  simpl in Hnone.
  destruct (label_in (autolabel idx) existing) eqn:E; [| discriminate].
  destruct k as [| k].
  - now rewrite Z.add_0_r.
  - replace (idx + Z.of_nat (S k)) with (idx + 1 + Z.of_nat k) by lia.
    apply IH; [assumption | lia].
Qed.

(** The first loop ends: the query result is finite and the labels it is
    tested against are pairwise distinct. *)
Lemma skip_existing_total (existing : list string) (idx : Z) :
  exists n, skip_existing (S (length existing)) existing idx = Some n.
Proof.
  destruct (skip_existing (S (length existing)) existing idx) as [n |] eqn:E;
    [eauto |].
  exfalso.
  pose proof (skip_existing_None _ _ _ E) as Hall.
  set (tried := List.map (fun k => autolabel (idx + Z.of_nat k))
                         (seq 0 (S (length existing)))).
  assert (Hnodup : List.NoDup tried).
  { apply Finite.Injective_map_NoDup; [| apply seq_NoDup].
    intros x y Hxy. apply autolabel_inj in Hxy. lia. }
  assert (Hincl : incl tried existing).
  { intros l Hl. apply in_map_iff in Hl as (k & <- & Hk).
    apply in_seq in Hk. apply label_in_In, Hall. lia. }
  pose proof (List.NoDup_incl_length Hnodup Hincl) as Hlen.
  unfold tried in Hlen. rewrite length_map, length_seq in Hlen. lia.
Qed.

Lemma skip_existing_Some (fuel : nat) (existing : list string) :
  forall idx n,
    skip_existing fuel existing idx = Some n ->
    idx <= n /\ label_in (autolabel n) existing = false /\
    forall k, idx <= k < n -> label_in (autolabel k) existing = true.
Proof.
  induction fuel as [| fuel IH]; intros idx n Hsome; [discriminate |].
  simpl in Hsome.
  destruct (label_in (autolabel idx) existing) eqn:E.
  - apply IH in Hsome as (Hle & Hfree & Hused).
    split; [lia |]. split; [assumption |].
    intros k Hk. destruct (Z.eq_dec k idx) as [-> | Hne]; [assumption |].
    apply Hused. lia.
  - inversion Hsome. subst. split; [lia |]. split; [assumption |].
    intros k Hk. lia.
Qed.

(** The retry loop, entered with [safety_counter] at most 100 and enough
    fuel for the iterations that are left: either one of the next
    [100 - safety_counter] labels is inserted, after all labels before it
    were refused, or all of them are refused and the loop gives up, the
    world untouched. *)
Lemma autolabel_loop_spec (self src : loc) (link_type : LinkType) (w : World)
    (fuel : nat) :
  forall safety_counter idx,
    safety_counter <= 100 ->
    100 - safety_counter < Z.of_nat fuel ->
    (exists k s',
        0 <= k < 100 - safety_counter /\
        (forall j, 0 <= j < k ->
           insert_link (session w)
             (link_row w self src (autolabel (idx + j)) link_type) = None) /\
        insert_link (session w)
          (link_row w self src (autolabel (idx + k)) link_type) = Some s' /\
        autolabel_loop fuel self src link_type safety_counter idx w =
          Return tt (set_session w s'))
    \/
    ((forall j, 0 <= j < 100 - safety_counter ->
        insert_link (session w)
          (link_row w self src (autolabel (idx + j)) link_type) = None) /\
     autolabel_loop fuel self src link_type safety_counter idx w =
       Raise ConcurrencyExhausted w).
Proof.
  induction fuel as [| fuel IH]; intros sc idx Hsc Hfuel.
  - simpl in Hfuel. lia.
  - simpl. destruct (Z.gtb_spec (sc + 1) 100) as [Hgt | Hle].
    + right. split; [intros j Hj; lia | reflexivity].
    + unfold try_except, _do_create_link.
      fold (link_row w self src (autolabel idx) link_type).
      destruct (insert_link (session w)
                  (link_row w self src (autolabel idx) link_type))
        as [s' |] eqn:Hins.
      * left. exists 0, s'. rewrite Z.add_0_r.
        split; [lia |]. split; [intros j Hj; lia |]. split; [assumption | reflexivity].
      * destruct (IH (sc + 1) (idx + 1)) as [(k & s' & Hk & Hbefore & Hok & Hres) | [Hall Hres]];
          [lia | lia | |].
        -- left. exists (k + 1), s'. split; [lia |]. split; [| split].
           ++ intros j Hj. destruct (Z.eq_dec j 0) as [-> | Hne].
              ** now rewrite Z.add_0_r.
              ** replace (idx + j) with (idx + 1 + (j - 1)) by lia.
                 apply Hbefore. lia.
           ++ replace (idx + (k + 1)) with (idx + 1 + k) by lia. assumption.
           ++ assumption.
        -- right. split; [| assumption].
           intros j Hj. destruct (Z.eq_dec j 0) as [-> | Hne].
           ++ now rewrite Z.add_0_r.
           ++ replace (idx + j) with (idx + 1 + (j - 1)) by lia.
              apply Hall. lia.
Qed.




(** With a hundred concurrent writers holding [link_1] to [link_100] on
    the destination, the budget is used up and nothing is inserted. *)
Example autolabel_budget_exhausted :
  _add_dblink_from 1%nat 0%nat None INPUT contended_world =
    Raise ConcurrencyExhausted contended_world.
Proof. vm_compute. reflexivity. Qed.

(** With ninety-nine of them, the hundredth attempt goes through. *)
Example autolabel_last_attempt :
  let w :=
    set_session contended_world
      (mkSession (cur (session contended_world)) (committed (session contended_world))
         (firstn 99 (unseen_links (session contended_world))) false) in
  exists w',
    _add_dblink_from 1%nat 0%nat None INPUT w = Return tt w' /\
    db_links (cur (session w')) = [mkDbLink (Some 1) (Some 2) "link_100" INPUT].
Proof. cbv zeta. eexists. split; vm_compute; reflexivity. Qed.

(** ** Storing *)

Lemma keeps_heap_Return {A} (m : M A) (w w' : World) (a : A) :
  keeps_heap m -> m w = Return a w' -> heap w' = heap w.
Proof. intros Hm Hr. specialize (Hm w). now rewrite Hr in Hm. Qed.

Lemma keeps_heap_Raise {A} (m : M A) (w w' : World) (e : exn) :
  keeps_heap m -> m w = Raise e w' -> heap w' = heap w.
Proof. intros Hm Hr. specialize (Hm w). now rewrite Hr in Hm. Qed.

(** What the steps of [store] do to the object they are called on. *)

Lemma get_temp_folder_node (self : loc) (w : World) :
  exists f w',
    _get_temp_folder self w = Return f w' /\
    _to_be_stored (heap w' self) = _to_be_stored (heap w self) /\
    _attrs_cache (heap w' self) = _attrs_cache (heap w self).
Proof.
  unfold _get_temp_folder.
  destruct (_temp_folder (heap w self)) as [f |].
  - exists f, w. auto.
  - eexists _, _. split; [reflexivity |]. simpl. rewrite update_eq. auto.
Qed.

Lemma repository_replace_node (self : loc) (w w' : World) (u : unit) :
  repository_replace_with_temp self w = Return u w' ->
  _to_be_stored (heap w' self) = _to_be_stored (heap w self) /\
  _attrs_cache (heap w' self) = _attrs_cache (heap w self).
Proof.
  unfold repository_replace_with_temp.
  destruct (fs_fails w); [discriminate |].
  intros H. inversion H. simpl. rewrite update_eq. auto.
Qed.

Lemma dbnode_save_node (self : loc) (w w' : World) (u : unit) :
  dbnode_save self w = Return u w' ->
  _to_be_stored (heap w' self) = _to_be_stored (heap w self) /\
  _attrs_cache (heap w' self) = _attrs_cache (heap w self).
Proof.
  unfold dbnode_save.
  destruct (id (_dbnode (heap w self))).
  - intros H. inversion H. auto.
  - destruct (uuid_taken _ _); [discriminate |].
    intros H. inversion H. simpl. rewrite update_eq. auto.
Qed.

Lemma store_cached_input_links_node (self : loc) (wt : bool) (w w' : World)
    (u : unit) :
  _store_cached_input_links self wt w = Return u w' ->
  heap w' self = set_inputlinks_cache (heap w self) [].
Proof.
  unfold _store_cached_input_links. unfold bind at 1. unfold read_node at 1.
  destruct (_to_be_stored (heap w self)); [discriminate |].
  unfold bind at 1.
  destruct (_check_are_parents_stored self w) as [[] w1 | |] eqn:E1;
    [| discriminate | discriminate].
  apply keeps_heap_Return in E1; [| apply keeps_heap_check_parents].
  unfold bind at 1.
  destruct (add_cached_links self _ w1) as [[] w2 | |] eqn:E2;
    [| discriminate | discriminate].
  apply keeps_heap_Return in E2; [| apply keeps_heap_add_cached_links].
  unfold bind at 1. unfold read_node at 1. unfold bind at 1. unfold write_node at 1.
  intros H.
  assert (Hheap : heap w' = heap (set_node w2 self (set_inputlinks_cache (heap w2 self) []))).
  { destruct wt.
    - apply keeps_heap_Return in H; [assumption | apply keeps_heap_commit_or_rollback].
    - inversion H. reflexivity. }
  rewrite Hheap. simpl. rewrite update_eq. now rewrite E2, E1.
Qed.

Section StoreFacts.

Variable _validate : Node -> option string.
Variable VERDIAUTOGROUP_TYPE : string.

(** The [try:] block, when it completes, has moved the cache into the
    row and cleared the flag. *)
Lemma store_try_Return (self : loc) (wt : bool) (w w' : World) (u : unit) :
  store_try self wt w = Return u w' ->
  exists c,
    _attrs_cache (heap w self) = Some c /\
    _to_be_stored (heap w' self) = false /\
    _attrs_cache (heap w' self) = None /\
    attributes (_dbnode (heap w' self)) = Some c.
Proof.
  unfold store_try. unfold bind at 1.
  destruct (dbnode_save self w) as [[] w1 | |] eqn:E1;
    [| discriminate | discriminate].
  apply dbnode_save_node in E1 as [_ Hcache1].
  unfold bind at 1. unfold move_attrs_cache, bind at 1. unfold read_node at 1.
  rewrite Hcache1.
  destruct (_attrs_cache (heap w self)) as [c |]; [| discriminate].
  unfold write_node at 1.
  unfold bind at 1 2. unfold read_node at 1. unfold write_node at 1.
  unfold bind at 1 2. unfold read_node at 1. unfold write_node at 1.
  unfold bind at 1.
  match goal with
  | |- context [_store_cached_input_links self false ?w0] =>
      destruct (_store_cached_input_links self false w0) as [[] w2 | |] eqn:E2;
        [| discriminate | discriminate]
  end.
  apply store_cached_input_links_node in E2.
  simpl in E2. rewrite !update_eq in E2. simpl in E2.
  intros H.
  assert (Hheap : heap w' = heap w2).
  { destruct wt.
    - apply keeps_heap_Return in H; [assumption |].
      apply keeps_heap_try; [apply keeps_heap_commit |].
      intros e. destruct e; try apply keeps_heap_raise.
      apply keeps_heap_bind; [apply keeps_heap_print |].
      intros _. apply keeps_heap_rollback.
    - inversion H. reflexivity. }
  exists c. rewrite Hheap, E2. auto.
Qed.

(** The [except:] block never swallows the exception. *)
Lemma store_except_not_Return (self : loc) (e : exn) (w w' : World) (u : unit) :
  store_except self e w <> Return u w'.
Proof.
  unfold store_except. unfold bind at 1.
  destruct (get_temp_folder_node self w) as (f & w1 & -> & _).
  unfold bind. destruct (temp_replace_with_repository self w1); discriminate.
Qed.

(** A store that returns has gone through the whole [try:] block. *)
Lemma store_unstored_Return (self r : loc) (wt : bool) (w w' : World) :
  _to_be_stored (heap w self) = true ->
  store _validate VERDIAUTOGROUP_TYPE self wt w = Return r w' ->
  r = self /\
  exists c,
    _attrs_cache (heap w self) = Some c /\
    _to_be_stored (heap w' self) = false /\
    _attrs_cache (heap w' self) = None /\
    attributes (_dbnode (heap w' self)) = Some c.
Proof.
  intros Hflag. unfold store. unfold bind at 1. unfold read_node at 1.
  rewrite Hflag. unfold bind at 1. unfold validate.
  destruct (_validate (heap w self)); [discriminate |].
  unfold bind at 1.
  destruct (_check_are_parents_stored self w) as [[] w0 | |] eqn:E0;
    [| discriminate | discriminate].
  assert (w0 = w) as ->.
  { unfold _check_are_parents_stored in E0.
    destruct (offending_link _ _); [discriminate | now inversion E0]. }
  unfold bind at 1.
  destruct (get_temp_folder_node self w) as (f & w1 & -> & Hf1 & Hc1).
  unfold bind at 1.
  destruct (repository_replace_with_temp self w1) as [[] w2 | |] eqn:E2;
    [| discriminate | discriminate].
  apply repository_replace_node in E2 as [Hf2 Hc2].
  unfold bind at 1. unfold try_except.
  destruct (store_try self wt w2) as [[] w3 | e w3 |] eqn:E3; [| | discriminate].
  - apply store_try_Return in E3 as (c & Hc & Hflag3 & Hcache3 & Hattr3).
    unfold bind at 1.
    destruct (autogroup_hook VERDIAUTOGROUP_TYPE self w3) as [[] w4 | |] eqn:E4;
      [| discriminate | discriminate].
    apply keeps_heap_Return in E4; [| apply keeps_heap_autogroup_hook].
    unfold ret. intros H. inversion H. subst. split; [reflexivity |].
    exists c. rewrite E4. repeat split; try assumption. congruence.
  - destruct (store_except self e w3) as [[] w4 | |] eqn:E4; try discriminate.
    exfalso. exact (store_except_not_Return _ _ _ _ _ E4).
Qed.

End StoreFacts.

(** ** Storing twice (C2) *)

(** C2: on a node that is already stored, [store] returns the node and
    leaves the whole world as it is (objects, session, repository,
    output), whatever the class's validator, the state of the file system
    and the autogroup context are: nothing is validated, moved, written,
    flushed or grouped, and no version changes.  Hence a second [store]
    after one that returned is such a no-op: it returns the same node
    and the world the first call left. *)
Theorem store_on_stored_node_is_noop (_validate : Node -> option string)
    (VERDIAUTOGROUP_TYPE : string) (w : World) (self : loc) (wt wt' : bool) :
  (_to_be_stored (heap w self) = false ->
   store _validate VERDIAUTOGROUP_TYPE self wt w = Return self w) /\
  (forall r w1,
     store _validate VERDIAUTOGROUP_TYPE self wt w = Return r w1 ->
     r = self /\
     store _validate VERDIAUTOGROUP_TYPE self wt' w1 = Return self w1).
Proof.
  assert (Hnoop : forall w0 b, _to_be_stored (heap w0 self) = false ->
            store _validate VERDIAUTOGROUP_TYPE self b w0 = Return self w0).
  { intros w0 b H. unfold store, bind, read_node. now rewrite H. }
  split; [apply Hnoop |].
  intros r w1 Hret.
  destruct (_to_be_stored (heap w self)) eqn:Hflag.
  - apply store_unstored_Return in Hret as (-> & c & _ & Hflag1 & _); [| assumption].
    split; [reflexivity | now apply Hnoop].
  - rewrite (Hnoop w wt Hflag) in Hret. inversion Hret. subst.
    split; [reflexivity | now apply Hnoop].
Qed.

Lemma store_on_stored_node_is_noop_witness :
  store require_x "auto.run" 0%nat true (linked_world []) =
    Return 0%nat (linked_world []) /\
  exists w1,
    store accept_all "auto.run" 1%nat true ready_world = Return 1%nat w1 /\
    store accept_all "auto.run" 1%nat true w1 = Return 1%nat w1.
Proof.
  split.
  - apply (store_on_stored_node_is_noop require_x "auto.run" (linked_world [])
             0%nat true true). reflexivity.
  - destruct (store accept_all "auto.run" 1%nat true ready_world)
      as [r w1 | e w1 |] eqn:E.
    + destruct (proj2 (store_on_stored_node_is_noop accept_all "auto.run"
                         ready_world 1%nat true true) r w1 E) as [-> H].
      exists w1. split; [reflexivity | exact H].
    + exfalso. vm_compute in E. discriminate.
    + exfalso. vm_compute in E. discriminate.
Defined.

(** ** Parents must be stored (C3) *)

Lemma offending_link_found (h : loc -> Node)
    (links : list (string * (loc * LinkType))) (l : string) (a : loc)
    (link_type : LinkType) :
  In (l, (a, link_type)) links ->
  _to_be_stored (h a) = true ->
  exists l', offending_link h links = Some l'.
Proof.
  intros Hin Hflag. unfold offending_link.
  destruct (List.find _ links) as [x |] eqn:E; [simpl; eauto |].
  exfalso. apply (List.find_none _ _ E) in Hin. simpl in Hin.
  unfold is_stored in Hin. rewrite Hflag in Hin. discriminate.
Qed.

(** C3, counterexample: B is unstored and caches an input link from the
    unstored A, but B's own validation fails; [store] then raises
    ValidationError, not ModificationNotAllowed. *)
Lemma store_with_unstored_parent_validation_first :
  _to_be_stored (heap orphan_world 1%nat) = true /\
  In ("parent", (0%nat, INPUT)) (_inputlinks_cache (heap orphan_world 1%nat)) /\
  _to_be_stored (heap orphan_world 0%nat) = true /\
  store require_x "auto.run" 1%nat true orphan_world =
    Raise (ValidationError "x is missing") orphan_world.
Proof.
  split; [reflexivity |]. split; [now left |]. split; [reflexivity |].
  vm_compute. reflexivity.
Qed.

(** C3, as the code has it: let B be unstored with a cached input link
    whose source A is unstored.  [store] on B fails and leaves the world
    exactly as it was (no folder moved, no row written): with
    ModificationNotAllowed when B passes its own validation, and with the
    ValidationError of the validation otherwise, since [_validate] runs
    before the parents are checked.  So a [store] that returns had every
    source of a cached input link stored. *)
Theorem store_with_unstored_parent_fails (_validate : Node -> option string)
    (VERDIAUTOGROUP_TYPE : string) (w : World) (b a : loc) (l : string)
    (link_type : LinkType) (wt : bool) :
  _to_be_stored (heap w b) = true ->
  In (l, (a, link_type)) (_inputlinks_cache (heap w b)) ->
  _to_be_stored (heap w a) = true ->
  (_validate (heap w b) = None ->
   store _validate VERDIAUTOGROUP_TYPE b wt w =
     Raise (ModificationNotAllowed msg_parent_unstored) w) /\
  (forall msg,
     _validate (heap w b) = Some msg ->
     store _validate VERDIAUTOGROUP_TYPE b wt w = Raise (ValidationError msg) w) /\
  (forall r w', store _validate VERDIAUTOGROUP_TYPE b wt w <> Return r w').
Proof.
  intros Hflag Hin Ha.
  destruct (offending_link_found (heap w) _ l a link_type Hin Ha) as [l' Hoff].
  assert (Hvalid : _validate (heap w b) = None ->
            store _validate VERDIAUTOGROUP_TYPE b wt w =
              Raise (ModificationNotAllowed msg_parent_unstored) w).
  { intros Hv. unfold store. unfold bind at 1. unfold read_node at 1.
    rewrite Hflag. unfold bind at 1. unfold validate. rewrite Hv.
    unfold bind at 1. unfold _check_are_parents_stored. now rewrite Hoff. }
  assert (Hinvalid : forall msg, _validate (heap w b) = Some msg ->
            store _validate VERDIAUTOGROUP_TYPE b wt w = Raise (ValidationError msg) w).
  { intros msg Hv. unfold store. unfold bind at 1. unfold read_node at 1.
    rewrite Hflag. unfold bind at 1. unfold validate. now rewrite Hv. }
  split; [exact Hvalid |]. split; [exact Hinvalid |].
  intros r w' Hret.
  destruct (_validate (heap w b)) as [msg |] eqn:Hv.
  - rewrite (Hinvalid msg eq_refl) in Hret. discriminate.
  - rewrite (Hvalid eq_refl) in Hret. discriminate.
Qed.

Lemma store_with_unstored_parent_fails_witness :
  store accept_all "auto.run" 1%nat true orphan_world =
    Raise (ModificationNotAllowed msg_parent_unstored) orphan_world.
Proof.
  apply (store_with_unstored_parent_fails accept_all "auto.run" orphan_world
           1%nat 0%nat "parent" INPUT true eq_refl (or_introl eq_refl) eq_refl).
  reflexivity.
Defined.

(** ** Attributes (C8) *)

(** Induction on values, with the hypothesis for every item of a list and
    every value of a mapping. *)
Lemma value_nested_ind (P : value -> Prop) :
  P VNone ->
  (forall b, P (VBool b)) ->
  (forall z, P (VInt z)) ->
  (forall s, P (VStr s)) ->
  (forall items, Forall P items -> P (VList items)) ->
  (forall items, Forall (fun kv => P (snd kv)) items -> P (VDict items)) ->
  forall v, P v.
Proof.
  intros HNone HBool HInt HStr HList HDict.
  fix IH 1. intros [| b | z | s | items | items].
  - exact HNone.
  - apply HBool.
  - apply HInt.
  - apply HStr.
  - apply HList. induction items as [| x rest IHrest]; constructor.
    + apply IH.
    + exact IHrest.
  - apply HDict. induction items as [| [k x] rest IHrest]; constructor.
    + apply IH.
    + exact IHrest.
Qed.

(** The copy is equal to the original. *)
Lemma deepcopy_eq (v : value) : deepcopy v = v.
Proof.
  induction v as [| b | z | s | items IH | items IH] using value_nested_ind;
    try reflexivity.
  - simpl. f_equal. induction IH as [| x rest Hx _ IHrest]; [reflexivity |].
    simpl. now rewrite Hx, IHrest.
  - simpl. f_equal. induction IH as [| [k x] rest Hx _ IHrest]; [reflexivity |].
    simpl in *. now rewrite Hx, IHrest.
Qed.

Lemma set_attr_unstored (self : loc) (key : string) (v : value) (w : World)
    (c : gmap string value) :
  _to_be_stored (heap w self) = true ->
  _attrs_cache (heap w self) = Some c ->
  _set_attr self key v w =
    Return tt (set_node w self
                 (set_attrs_cache (heap w self) (Some (<[key := deepcopy v]> c)))).
Proof.
  intros Hflag Hcache. unfold _set_attr, bind, read_node.
  now rewrite Hflag, Hcache.
Qed.



(** ** A store that fails while the links are flushed (C1) *)

(** C1, the code at the failing input: B is unstored, valid, with its
    files staged and one cached input link from A, and the backend
    refuses the link row (A's row is gone).  [store] re-raises the
    error of the link flush after moving the files back into the sandbox,
    but by then [_to_be_stored] has been cleared and [_attrs_cache]
    deleted, and neither is restored: B is left flagged as stored with
    its files unstaged from the repository, its link still cached and not
    in the link table, and nothing committed.  A second [store] is the
    no-op of a stored node. *)
Theorem store_failed_link_flush_leaves_half_stored :
  let w := dangling_parent_world in
  _to_be_stored (heap w 1%nat) = true /\
  _attrs_cache (heap w 1%nat) = Some (<["x" := VInt 1]> ∅) /\
  exists w',
    store accept_all "auto.run" 1%nat true w = Raise DuplicateLinkError w' /\
    _temp_folder (heap w' 1%nat) = Some ["f.txt"] /\
    repository w' !! "uuid-B" = None /\
    _to_be_stored (heap w' 1%nat) = false /\
    _attrs_cache (heap w' 1%nat) = None /\
    _inputlinks_cache (heap w' 1%nat) = [("parent", (0%nat, INPUT))] /\
    db_links (cur (session w')) = [] /\
    committed (session w') = committed (session w) /\
    store accept_all "auto.run" 1%nat true w' = Return 1%nat w'.
Proof.
  cbv zeta. split; [vm_compute; reflexivity |]. split; [vm_compute; reflexivity |].
  eexists. split; [vm_compute; reflexivity |].
  do 7 (split; [vm_compute; reflexivity |]).
  vm_compute. reflexivity.
Qed.

(** When the failure comes earlier, at the row write, the same handler
    does leave the node unstored: flag set, cache in place, files back. *)
Example store_failed_row_write_leaves_unstored :
  let w :=
    quiet_world (heap dangling_parent_world) (tables_of [(7, "uuid-B")] [] [] 8) in
  exists w',
    store accept_all "auto.run" 1%nat true w =
      Raise (SQLAlchemyError "duplicate uuid") w' /\
    _temp_folder (heap w' 1%nat) = Some ["f.txt"] /\
    repository w' !! "uuid-B" = None /\
    _to_be_stored (heap w' 1%nat) = true /\
    _attrs_cache (heap w' 1%nat) = Some (<["x" := VInt 1]> ∅).
Proof.
  cbv zeta. eexists. split; [vm_compute; reflexivity |].
  do 3 (split; [vm_compute; reflexivity |]).
  vm_compute. reflexivity.
Qed.

(** * Further properties of the link validator *)

Lemma set_session_id (w : World) : set_session w (session w) = w.
Proof. now destruct w. Qed.

Lemma session_only_ret {A} (a : A) : session_only (ret a).
Proof. intros w. simpl. now rewrite set_session_id. Qed.

Lemma session_only_raise {A} (e : exn) : session_only (@raise A e).
Proof. intros w. simpl. now rewrite set_session_id. Qed.

Lemma session_only_bind {A B} (m : M A) (f : A -> M B) :
  session_only m -> (forall a, session_only (f a)) -> session_only (bind m f).
Proof.
  intros Hm Hf w. unfold bind. specialize (Hm w).
  destruct (m w) as [a w1 | e w1 |]; simpl in *; [| assumption | exact I].
  specialize (Hf a w1). destruct (f a w1) as [b w2 | e w2 |]; simpl in *;
    try exact I; rewrite Hf, Hm; reflexivity.
Qed.

Lemma session_only_try {A} (m : M A) (h : exn -> M A) :
  session_only m -> (forall e, session_only (h e)) -> session_only (try_except m h).
Proof.
  intros Hm Hh w. unfold try_except. specialize (Hm w).
  destruct (m w) as [a w1 | e w1 |]; simpl in *; [assumption | | exact I].
  specialize (Hh e w1). destruct (h e w1) as [b w2 | e' w2 |]; simpl in *;
    try exact I; rewrite Hh, Hm; reflexivity.
Qed.

Lemma session_only_Return {A} (m : M A) (w w' : World) (a : A) :
  session_only m -> m w = Return a w' -> w' = set_session w (session w').
Proof. intros Hm Hr. specialize (Hm w). now rewrite Hr in Hm. Qed.

Lemma session_only_Raise {A} (m : M A) (w w' : World) (e : exn) :
  session_only m -> m w = Raise e w' -> w' = set_session w (session w').
Proof. intros Hm Hr. specialize (Hm w). now rewrite Hr in Hm. Qed.

Lemma do_create_link_cases (self src : loc) (l : string) (link_type : LinkType)
    (w : World) :
  (link_insert_allowed (session w) (link_row w self src l link_type) = true /\
   _do_create_link self src l link_type w =
     Return tt (set_session w (set_cur (session w)
        (set_links (cur (session w))
           (db_links (cur (session w)) ++ [link_row w self src l link_type])))))
  \/
  (link_insert_allowed (session w) (link_row w self src l link_type) = false /\
   _do_create_link self src l link_type w = Raise DuplicateLinkError w).
Proof.
  unfold _do_create_link, insert_link. fold (link_row w self src l link_type).
  destruct (link_insert_allowed _ _); [left | right]; split; reflexivity.
Qed.

Lemma autolabel_loop_Raise (self src : loc) (link_type : LinkType) (w : World)
    (fuel : nat) :
  forall safety_counter idx e w',
    autolabel_loop fuel self src link_type safety_counter idx w = Raise e w' ->
    w' = w /\ e = ConcurrencyExhausted.
Proof.
  induction fuel as [| fuel IH]; intros sc idx e w' H; [discriminate |].
  simpl in H. destruct (sc + 1 >? 100).
  - inversion H. split; reflexivity.
  - unfold try_except in H.
    destruct (do_create_link_cases self src (autolabel idx) link_type w)
      as [[_ Hr] | [_ Hr]]; rewrite Hr in H; [discriminate |].
    now apply IH in H.
Qed.

Lemma autolabel_loop_Return (self src : loc) (link_type : LinkType) (w : World)
    (fuel : nat) :
  forall safety_counter idx w',
    autolabel_loop fuel self src link_type safety_counter idx w = Return tt w' ->
    exists n,
      idx <= n /\
      link_insert_allowed (session w)
        (link_row w self src (autolabel n) link_type) = true /\
      w' = set_session w (set_cur (session w)
             (set_links (cur (session w))
                (db_links (cur (session w))
                 ++ [link_row w self src (autolabel n) link_type]))).
Proof.
  induction fuel as [| fuel IH]; intros sc idx w' H; [discriminate |].
  simpl in H. destruct (sc + 1 >? 100); [discriminate |].
  unfold try_except in H.
  destruct (do_create_link_cases self src (autolabel idx) link_type w)
    as [[Hok Hr] | [_ Hr]]; rewrite Hr in H.
  - inversion H. exists idx. split; [lia |]. split; [assumption | reflexivity].
  - apply IH in H as (n & Hn & Hok & Hw). exists n. split; [lia |]. auto.
Qed.

Lemma refused_link_changes_nothing_aux (w w' : World) (self src : loc)
    (l : option string) (link_type : LinkType) (e : exn) :
  _add_dblink_from self src l link_type w = Raise e w' -> w' = w.
Proof.
  unfold _add_dblink_from, bind, read_node.
  destruct (String.eqb _ _); [now inversion 1 |].
  destruct (_to_be_stored (heap w self)); [now inversion 1 |].
  destruct (_to_be_stored (heap w src)); [now inversion 1 |].
  destruct (check_cycle self src link_type w) as [[] w0 | e0 w0 |] eqn:Hc.
  - assert (w0 = w) as ->.
    { unfold check_cycle in Hc. destruct (is_strong link_type).
      - destruct (path_exists _ _ _); [discriminate | now inversion Hc].
      - now inversion Hc. }
    destruct l as [l0 |].
    + destruct (do_create_link_cases self src l0 link_type w)
        as [[_ Hr] | [_ Hr]]; rewrite Hr; now inversion 1.
    + unfold add_autolabelled.
      destruct (skip_existing _ _ _); [| discriminate].
      intros H. now apply autolabel_loop_Raise in H.
  - intros H. inversion H. subst.
    unfold check_cycle in Hc. destruct (is_strong link_type).
    + destruct (path_exists _ _ _); now inversion Hc.
    + discriminate.
  - discriminate.
Qed.

(** X1: A link that is refused changes nothing: whenever [_add_dblink_from]
    raises, with or without a label, the world is the one it was called
    in, and the exception is one of the six the method can raise. *)
Theorem refused_link_changes_nothing (w w' : World) (self src : loc)
    (l : option string) (link_type : LinkType) (e : exn) :
  _add_dblink_from self src l link_type w = Raise e w' ->
  w' = w /\
  (e = SelfLinkError \/ e = ModificationNotAllowed msg_dest_unstored \/
   e = ModificationNotAllowed msg_src_unstored \/ e = CycleError \/
   e = DuplicateLinkError \/ e = ConcurrencyExhausted).
Proof.
  unfold _add_dblink_from, bind, read_node.
  destruct (String.eqb _ _).
  { intros H. inversion H. auto. }
  destruct (_to_be_stored (heap w self)).
  { intros H. inversion H. auto 6. }
  destruct (_to_be_stored (heap w src)).
  { intros H. inversion H. auto 6. }
  unfold check_cycle.
  destruct (is_strong link_type && path_exists (cur (session w))
              (id (_dbnode (heap w self))) (id (_dbnode (heap w src)))) eqn:Hc.
  { apply andb_true_iff in Hc as [-> ->]. intros H. inversion H. auto 6. }
  assert (Hpass :
    (if is_strong link_type
     then if path_exists (cur (session w)) (id (_dbnode (heap w self)))
                         (id (_dbnode (heap w src)))
          then Raise (ValueError msg_loop) w else Return tt w
     else Return tt w) = Return tt w).
  { destruct (is_strong link_type); [| reflexivity].
    simpl in Hc. now rewrite Hc. }
  rewrite Hpass. destruct l as [l0 |].
  - destruct (do_create_link_cases self src l0 link_type w)
      as [[_ Hr] | [_ Hr]]; rewrite Hr; intros H; inversion H. auto 8.
  - unfold add_autolabelled.
    destruct (skip_existing _ _ _); [| discriminate].
    intros H. apply autolabel_loop_Raise in H as [-> ->]. auto 8.
Qed.

(** X2: A link that is committed: whenever [_add_dblink_from] returns, the
    two nodes are different and both stored, a strong link closes no path
    of the closure table, and the world differs from the one before only
    by one row appended to the link table, from [src] to [self] with the
    given type, whose label the backend accepted: the label asked for, or
    some [link_<n>] with n >= 1 when none was given. *)
Theorem committed_link_is_one_row (w w' : World) (self src : loc)
    (l : option string) (link_type : LinkType) :
  _add_dblink_from self src l link_type w = Return tt w' ->
  linkable w self src /\
  (is_strong link_type = true ->
   path_exists (cur (session w)) (id (_dbnode (heap w self)))
               (id (_dbnode (heap w src))) = false) /\
  exists l',
    match l with
    | Some l0 => l' = l0
    | None => exists n, 1 <= n /\ l' = autolabel n
    end /\
    link_insert_allowed (session w) (link_row w self src l' link_type) = true /\
    w' = set_session w (set_cur (session w)
           (set_links (cur (session w))
              (db_links (cur (session w)) ++ [link_row w self src l' link_type]))).
Proof.
  unfold _add_dblink_from, bind, read_node.
  destruct (String.eqb _ _) eqn:Hu; [discriminate |].
  destruct (_to_be_stored (heap w self)) eqn:Hs; [discriminate |].
  destruct (_to_be_stored (heap w src)) eqn:Hr; [discriminate |].
  unfold check_cycle.
  destruct (is_strong link_type) eqn:Hstrong.
  - destruct (path_exists _ _ _) eqn:Hp; [discriminate |].
    intros H. split; [| split; [now intros _ |]].
    { split; [now apply String.eqb_neq | split; assumption]. }
    destruct l as [l0 |].
    + destruct (do_create_link_cases self src l0 link_type w)
        as [[Hok Hres] | [_ Hres]]; rewrite Hres in H; [| discriminate].
      inversion H. exists l0. auto.
    + unfold add_autolabelled in H.
      destruct (skip_existing _ _ _) as [first |] eqn:Hskip; [| discriminate].
      apply skip_existing_Some in Hskip as (Hle & _).
      apply autolabel_loop_Return in H as (n & Hn & Hok & Hw).
      exists (autolabel n). split; [exists n; split; [lia | reflexivity] |]. auto.
  - intros H. split; [| split; [discriminate |]].
    { split; [now apply String.eqb_neq | split; assumption]. }
    destruct l as [l0 |].
    + destruct (do_create_link_cases self src l0 link_type w)
        as [[Hok Hres] | [_ Hres]]; rewrite Hres in H; [| discriminate].
      inversion H. exists l0. auto.
    + unfold add_autolabelled in H.
      destruct (skip_existing _ _ _) as [first |] eqn:Hskip; [| discriminate].
      apply skip_existing_Some in Hskip as (Hle & _).
      apply autolabel_loop_Return in H as (n & Hn & Hok & Hw).
      exists (autolabel n). split; [exists n; split; [lia | reflexivity] |]. auto.
Qed.

Lemma refused_link_changes_nothing_witness :
  let w := linked_world [(1, 2)] in
  _add_dblink_from 0%nat 1%nat (Some "back") INPUT w = Raise CycleError w /\
  (w = w /\
   (CycleError = SelfLinkError \/
    CycleError = ModificationNotAllowed msg_dest_unstored \/
    CycleError = ModificationNotAllowed msg_src_unstored \/
    CycleError = CycleError \/ CycleError = DuplicateLinkError \/
    CycleError = ConcurrencyExhausted)).
Proof.
  cbv zeta.
  assert (H : _add_dblink_from 0%nat 1%nat (Some "back") INPUT (linked_world [(1, 2)])
              = Raise CycleError (linked_world [(1, 2)]))
    by (vm_compute; reflexivity).
  split; [exact H |].
  exact (refused_link_changes_nothing _ _ _ _ _ _ _ H).
Defined.

Lemma committed_link_is_one_row_witness :
  exists w',
    _add_dblink_from 0%nat 1%nat None CREATE (linked_world []) = Return tt w' /\
    db_links (cur (session w')) =
      [forward_link; mkDbLink (Some 2) (Some 1) "link_1" CREATE] /\
    linkable (linked_world []) 0%nat 1%nat.
Proof.
  destruct (_add_dblink_from 0%nat 1%nat None CREATE (linked_world []))
    as [[] w' | e w' |] eqn:E.
  - exists w'. split; [reflexivity |].
    destruct (committed_link_is_one_row _ _ _ _ _ _ E) as (Hl & _ & _).
    split; [| exact Hl].
    vm_compute in E. inversion E. reflexivity.
  - exfalso. vm_compute in E. discriminate.
  - exfalso. vm_compute in E. discriminate.
Defined.




(** * Further properties of the link flush *)

Lemma append_links_nil (w : World) : append_links w [] = w.
Proof.
  destruct w as [h [[n l p g i] c u f] r fs ag o out].
  unfold append_links. simpl. now rewrite app_nil_r.
Qed.

Lemma append_links_app (w : World) (a b : list DbLink) :
  append_links (append_links w a) b = append_links w (a ++ b).
Proof. unfold append_links. simpl. now rewrite app_assoc. Qed.

Lemma add_dblink_from_labelled_Return (w w' : World) (self src : loc)
    (l : string) (link_type : LinkType) :
  _add_dblink_from self src (Some l) link_type w = Return tt w' ->
  w' = append_links w [link_row w self src l link_type].
Proof.
  intros H. unfold _add_dblink_from, bind, read_node in H.
  destruct (String.eqb _ _); [discriminate |].
  destruct (_to_be_stored (heap w self)); [discriminate |].
  destruct (_to_be_stored (heap w src)); [discriminate |].
  destruct (check_cycle self src link_type w) as [[] w0 | |] eqn:Hc;
    [| discriminate | discriminate].
  assert (w0 = w) as ->.
  { unfold check_cycle in Hc. destruct (is_strong link_type).
    - destruct (path_exists _ _ _); [discriminate | now inversion Hc].
    - now inversion Hc. }
  destruct (do_create_link_cases self src l link_type w)
    as [[_ Hr] | [_ Hr]]; rewrite Hr in H; [| discriminate].
  now inversion H.
Qed.

(** The loop over the cached links: when it completes every link has its
    row, in the order of the cache; when it raises, the rows of the links
    before the refused one are in the session. *)
Lemma add_cached_links_spec (self : loc)
    (links : list (string * (loc * LinkType))) :
  forall w,
    match add_cached_links self links w with
    | Return _ w' => w' = append_links w (cached_rows w self links)
    | Raise e w' =>
        exists done rest,
          links = done ++ rest /\ rest <> [] /\
          w' = append_links w (cached_rows w self done)
    | OutOfFuel => False
    end.
Proof.
  induction links as [| [l [src link_type]] rest IH]; intros w.
  - simpl. now rewrite append_links_nil.
  - simpl. unfold bind.
    destruct (_add_dblink_from self src (Some l) link_type w)
      as [[] w1 | e w1 |] eqn:E.
    + apply add_dblink_from_labelled_Return in E. subst w1.
      specialize (IH (append_links w [link_row w self src l link_type])).
      destruct (add_cached_links self rest _) as [[] w2 | e w2 |].
      * rewrite IH, append_links_app. reflexivity.
      * destruct IH as (done & rest' & -> & Hne & ->).
        exists ((l, (src, link_type)) :: done), rest'.
        split; [reflexivity |]. split; [assumption |].
        rewrite append_links_app. reflexivity.
      * exact IH.
    + apply refused_link_changes_nothing_aux in E. subst w1.
      exists [], ((l, (src, link_type)) :: rest).
      split; [reflexivity |]. split; [discriminate |].
      simpl. now rewrite append_links_nil.
    + exfalso. unfold _add_dblink_from, bind, read_node in E.
      destruct (String.eqb _ _); [discriminate |].
      destruct (_to_be_stored (heap w self)); [discriminate |].
      destruct (_to_be_stored (heap w src)); [discriminate |].
      destruct (check_cycle self src link_type w) as [[] w0 | |] eqn:Hc;
        try discriminate.
      * destruct (do_create_link_cases self src l link_type w0)
          as [[_ Hr] | [_ Hr]]; rewrite Hr in E; discriminate.
      * unfold check_cycle in Hc. destruct (is_strong link_type);
          [destruct (path_exists _ _ _) |]; discriminate.
Qed.

Lemma check_parents_cases (self : loc) (w : World) :
  (_check_are_parents_stored self w = Return tt w /\
   forall link, In link (_inputlinks_cache (heap w self)) ->
                _to_be_stored (heap w (fst (snd link))) = false)
  \/
  (_check_are_parents_stored self w =
     Raise (ModificationNotAllowed msg_parent_unstored) w /\
   exists link, In link (_inputlinks_cache (heap w self)) /\
                _to_be_stored (heap w (fst (snd link))) = true).
Proof.
  unfold _check_are_parents_stored, offending_link.
  destruct (List.find _ _) as [link |] eqn:E; simpl.
  - right. split; [reflexivity |]. apply List.find_some in E as [Hin Hf].
    exists link. split; [assumption |].
    unfold is_stored in Hf. now apply negb_true_iff, negb_false_iff in Hf.
  - left. split; [reflexivity |]. intros link Hin.
    apply (List.find_none _ _ E) in Hin. unfold is_stored in Hin.
    now apply negb_false_iff, negb_true_iff in Hin.
Qed.

Lemma commit_or_rollback_Return (w : World) :
  commit_or_rollback w =
    Return tt (set_session w
      (if commit_fails (session w)
       then mkSession (committed (session w)) (committed (session w))
                      (unseen_links (session w)) (commit_fails (session w))
       else mkSession (cur (session w)) (cur (session w))
                      (unseen_links (session w)) (commit_fails (session w)))).
Proof.
  unfold commit_or_rollback, try_except, session_commit, session_rollback.
  destruct (commit_fails (session w)) eqn:E; simpl; rewrite ?E; reflexivity.
Qed.

(** X4: A flush that fails leaves every link in the cache.  Whenever
    [_store_cached_input_links] raises, no Python object has changed (the
    link cache of the node is intact), nothing has been committed, and
    the session holds the rows of the cached links that came before the
    refused one: these are not rolled back. *)
Theorem failed_flush_keeps_all_links_cached (w w' : World) (self : loc)
    (with_transaction : bool) (e : exn) :
  _store_cached_input_links self with_transaction w = Raise e w' ->
  exists done rest,
    _inputlinks_cache (heap w self) = done ++ rest /\
    w' = append_links w (cached_rows w self done) /\
    heap w' = heap w /\
    committed (session w') = committed (session w) /\
    db_links (cur (session w')) =
      db_links (cur (session w)) ++ cached_rows w self done.
Proof.
  unfold _store_cached_input_links. unfold bind at 1. unfold read_node at 1.
  destruct (_to_be_stored (heap w self)).
  { intros H. inversion H. subst. exists [], (_inputlinks_cache (heap w' self)).
    simpl. rewrite append_links_nil, app_nil_r. auto. }
  unfold bind at 1.
  destruct (check_parents_cases self w) as [[-> _] | [-> _]].
  2: { intros H. inversion H. subst. exists [], (_inputlinks_cache (heap w' self)).
       simpl. rewrite append_links_nil, app_nil_r. auto. }
  unfold bind at 1.
  pose proof (add_cached_links_spec self (_inputlinks_cache (heap w self)) w) as Hloop.
  destruct (add_cached_links self _ w) as [[] w1 | e1 w1 |]; [| | contradiction].
  - unfold bind at 1, read_node at 1. unfold bind at 1, write_node at 1.
    destruct with_transaction.
    + now rewrite commit_or_rollback_Return.
    + discriminate.
  - destruct Hloop as (done & rest & Hsplit & _ & ->).
    intros H. inversion H. subst. exists done, rest. auto.
Qed.

(** X5: A flush that completes.  Whenever [_store_cached_input_links]
    returns, the node was stored and so was the source of every cached
    link; the link cache of the node is now empty and no other object
    has changed.  Without a transaction the link table has grown by one
    row per cached link, in the order of the cache; with a transaction
    these rows are committed as well, unless the backend refuses the
    commit: then the session is rolled back to the last committed state
    and the rows are gone, although the cache has been cleared and the
    call returns normally. *)
Theorem completed_flush_writes_every_link (w w' : World) (self : loc)
    (with_transaction : bool) :
  _store_cached_input_links self with_transaction w = Return tt w' ->
  let rows := cached_rows w self (_inputlinks_cache (heap w self)) in
  _to_be_stored (heap w self) = false /\
  (forall link, In link (_inputlinks_cache (heap w self)) ->
                _to_be_stored (heap w (fst (snd link))) = false) /\
  heap w' = update (heap w) self (set_inputlinks_cache (heap w self) []) /\
  (with_transaction = false ->
   session w' = session (append_links w rows)) /\
  (with_transaction = true -> commit_fails (session w) = false ->
   db_links (cur (session w')) = db_links (cur (session w)) ++ rows /\
   committed (session w') = cur (session w')) /\
  (with_transaction = true -> commit_fails (session w) = true ->
   cur (session w') = committed (session w) /\
   committed (session w') = committed (session w)).
Proof.
  unfold _store_cached_input_links. unfold bind at 1. unfold read_node at 1.
  destruct (_to_be_stored (heap w self)); [discriminate |].
  unfold bind at 1.
  destruct (check_parents_cases self w) as [[-> Hparents] | [-> _]];
    [| discriminate].
  unfold bind at 1.
  pose proof (add_cached_links_spec self (_inputlinks_cache (heap w self)) w) as Hloop.
  destruct (add_cached_links self _ w) as [[] w1 | e1 w1 |];
    [| discriminate | contradiction].
  subst w1.
  unfold bind at 1, read_node at 1. unfold bind at 1, write_node at 1.
  destruct with_transaction.
  - rewrite commit_or_rollback_Return. intros H. inversion H. subst w'. clear H.
    cbv zeta. split; [reflexivity |]. split; [exact Hparents |].
    split; [reflexivity |]. split; [discriminate |]. simpl.
    split; intros _ Hc; rewrite Hc; simpl; auto.
  - intros H. inversion H. subst w'. clear H.
    cbv zeta. split; [reflexivity |]. split; [exact Hparents |].
    split; [reflexivity |]. split; [reflexivity |].
    split; discriminate.
Qed.

Lemma failed_flush_keeps_all_links_cached_witness :
  let w := pending_world [("a", (0%nat, INPUT)); ("forward", (0%nat, UNSPECIFIED));
                          ("b", (0%nat, INPUT))] in
  exists w',
    _store_cached_input_links 1%nat true w = Raise DuplicateLinkError w' /\
    _inputlinks_cache (heap w' 1%nat) = _inputlinks_cache (heap w 1%nat) /\
    committed (session w') = committed (session w) /\
    db_links (cur (session w')) =
      [forward_link; mkDbLink (Some 1) (Some 2) "a" INPUT].
Proof.
  cbv zeta.
  set (w := pending_world [("a", (0%nat, INPUT)); ("forward", (0%nat, UNSPECIFIED));
                           ("b", (0%nat, INPUT))]).
  destruct (_store_cached_input_links 1%nat true w) as [u w' | e w' |] eqn:E.
  - exfalso. vm_compute in E. discriminate.
  - assert (e = DuplicateLinkError) as -> by (vm_compute in E; now inversion E).
    destruct (failed_flush_keeps_all_links_cached _ _ _ _ _ E)
      as (done & rest & _ & _ & Hheap & Hcommitted & _).
    exists w'. split; [reflexivity |]. split; [now rewrite Hheap |].
    split; [exact Hcommitted |].
    vm_compute in E. inversion E. reflexivity.
  - exfalso. vm_compute in E. discriminate.
Defined.

Lemma completed_flush_writes_every_link_witness :
  let w := pending_world [("a", (0%nat, INPUT)); ("b", (0%nat, UNSPECIFIED))] in
  exists w',
    _store_cached_input_links 1%nat true w = Return tt w' /\
    _inputlinks_cache (heap w' 1%nat) = [] /\
    db_links (cur (session w')) =
      [forward_link; mkDbLink (Some 1) (Some 2) "a" INPUT;
       mkDbLink (Some 1) (Some 2) "b" UNSPECIFIED] /\
    committed (session w') = cur (session w').
Proof.
  cbv zeta.
  set (w := pending_world [("a", (0%nat, INPUT)); ("b", (0%nat, UNSPECIFIED))]).
  destruct (_store_cached_input_links 1%nat true w) as [[] w' | e w' |] eqn:E.
  - destruct (completed_flush_writes_every_link _ _ _ _ E)
      as (_ & _ & Hheap & _ & Hcommit & _).
    destruct (Hcommit eq_refl eq_refl) as [Hlinks Hcommitted].
    exists w'. split; [reflexivity |]. split; [| split].
    + rewrite Hheap. reflexivity.
    + rewrite Hlinks. reflexivity.
    + exact Hcommitted.
  - exfalso. vm_compute in E. discriminate.
  - exfalso. vm_compute in E. discriminate.
Defined.

(** * Frame lemmas for the store *)

Lemma frame_local_to (self : loc) : frame_relation (local_to self).
Proof.
  unfold frame_relation, local_to. repeat split; auto.
  - intros r Hr. destruct H as (H1 & _), H0 as (H2 & _).
    rewrite H2, H1 by assumption. reflexivity.
  - destruct H as (_ & H1 & _), H0 as (_ & H2 & _). congruence.
  - destruct H as (_ & _ & H1), H0 as (_ & _ & H2). auto.
Qed.

Lemma frame_stored_kept : frame_relation stored_kept.
Proof. unfold frame_relation, stored_kept. repeat split; auto. Qed.

Lemma frame_same_repository : frame_relation same_repository.
Proof.
  unfold frame_relation, same_repository. repeat split; auto. congruence.
Qed.

Lemma local_to_stored_kept (self : loc) (w w' : World) :
  local_to self w w' -> stored_kept w w'.
Proof.
  intros (Hothers & _ & Hself) r Hr.
  destruct (Nat.eq_dec r self) as [-> | Hne]; [auto |].
  now rewrite Hothers.
Qed.

Section Frame.

Variable R : World -> World -> Prop.
Hypothesis HR : frame_relation R.

Lemma respects_ret {A} (a : A) : respects R (ret a).
Proof. intros w. apply HR. Qed.

Lemma respects_raise {A} (e : exn) : respects R (@raise A e).
Proof. intros w. apply HR. Qed.

Lemma respects_bind {A B} (m : M A) (f : A -> M B) :
  respects R m -> (forall a, respects R (f a)) -> respects R (bind m f).
Proof.
  destruct HR as (_ & Htrans & _).
  intros Hm Hf w. unfold bind. specialize (Hm w).
  destruct (m w) as [a w1 | e w1 |]; simpl in *; [| assumption | exact I].
  specialize (Hf a w1). destruct (f a w1); simpl in *; eauto.
Qed.

Lemma respects_try {A} (m : M A) (h : exn -> M A) :
  respects R m -> (forall e, respects R (h e)) -> respects R (try_except m h).
Proof.
  destruct HR as (_ & Htrans & _).
  intros Hm Hh w. unfold try_except. specialize (Hm w).
  destruct (m w) as [a w1 | e w1 |]; simpl in *; [assumption | | exact I].
  specialize (Hh e w1). destruct (h e w1); simpl in *; eauto.
Qed.

Lemma respects_session_only {A} (m : M A) : session_only m -> respects R m.
Proof.
  destruct HR as (_ & _ & Hsess & _).
  intros Hm w. specialize (Hm w).
  destruct (m w) as [a w1 | e w1 |]; simpl in *; try exact I;
    rewrite Hm; apply Hsess.
Qed.

Lemma respects_read (self : loc) : respects R (read_node self).
Proof. intros w. apply HR. Qed.

Lemma respects_print (line : string) : respects R (print line).
Proof. intros w. apply HR. Qed.

Lemma respects_validate (_validate : Node -> option string) (self : loc) :
  respects R (validate _validate self).
Proof. intros w. unfold validate. destruct (_validate _); apply HR. Qed.

Lemma respects_check_parents (self : loc) :
  respects R (_check_are_parents_stored self).
Proof.
  intros w. unfold _check_are_parents_stored.
  destruct (offending_link _ _); apply HR.
Qed.

End Frame.

Lemma session_only_do_create_link self src l link_type :
  session_only (_do_create_link self src l link_type).
Proof.
  intros w. unfold _do_create_link. destruct (insert_link _ _); simpl.
  - reflexivity.
  - now rewrite set_session_id.
Qed.

Lemma session_only_add_dblink_from self src l link_type :
  session_only (_add_dblink_from self src l link_type).
Proof.
  intros w.
  destruct (_add_dblink_from self src l link_type w) as [[] w' | e w' |] eqn:E;
    simpl; [| | exact I].
  - unfold _add_dblink_from, bind, read_node in E.
    destruct (String.eqb _ _); [discriminate |].
    destruct (_to_be_stored (heap w self)); [discriminate |].
    destruct (_to_be_stored (heap w src)); [discriminate |].
    destruct (check_cycle self src link_type w) as [[] w0 | |] eqn:Hc;
      [| discriminate | discriminate].
    assert (w0 = w) as ->.
    { unfold check_cycle in Hc. destruct (is_strong link_type).
      - destruct (path_exists _ _ _); [discriminate | now inversion Hc].
      - now inversion Hc. }
    destruct l as [l0 |].
    + pose proof (session_only_do_create_link self src l0 link_type w) as H.
      now rewrite E in H.
    + unfold add_autolabelled in E.
      destruct (skip_existing _ _ _); [| discriminate].
      apply autolabel_loop_Return in E as (n & _ & _ & ->). reflexivity.
  - apply refused_link_changes_nothing_aux in E. subst.
    now rewrite set_session_id.
Qed.

Lemma session_only_add_cached_links self links :
  session_only (add_cached_links self links).
Proof.
  induction links as [| [l [src link_type]] rest IH]; simpl.
  - apply session_only_ret.
  - apply session_only_bind; [apply session_only_add_dblink_from |].
    intros _. exact IH.
Qed.

Lemma session_only_commit_or_rollback : session_only commit_or_rollback.
Proof. intros w. rewrite commit_or_rollback_Return. reflexivity. Qed.

Lemma session_only_autogroup_hook T self : session_only (autogroup_hook T self).
Proof.
  intros w. unfold autogroup_hook.
  destruct (current_autogroup w) as [[| f name] |]; simpl;
    try (now rewrite set_session_id).
  destruct (f _); simpl; [| now rewrite set_session_id].
  destruct name; simpl; [reflexivity | now rewrite set_session_id].
Qed.

(** Steps that assign to the object at [self]. *)
Lemma local_to_write (self : loc) (w : World) (n : Node) :
  uuid (_dbnode n) = uuid (_dbnode (heap w self)) ->
  (_to_be_stored (heap w self) = false -> _to_be_stored n = false) ->
  local_to self w (set_node w self n).
Proof.
  intros Hu Hf. unfold local_to. simpl. rewrite update_eq.
  split; [| split; assumption].
  intros r0 Hr0. now apply update_ne.
Qed.

Lemma local_get_temp_folder (self : loc) : respects (local_to self) (_get_temp_folder self).
Proof.
  intros w. unfold _get_temp_folder.
  destruct (_temp_folder (heap w self)); simpl.
  - apply frame_local_to.
  - apply local_to_write; auto.
Qed.

Lemma local_repository_replace (self : loc) :
  respects (local_to self) (repository_replace_with_temp self).
Proof.
  intros w. unfold repository_replace_with_temp.
  destruct (fs_fails w); simpl; [apply frame_local_to |].
  unfold local_to. simpl. rewrite update_eq.
  split; [| split; auto]. intros r Hr. now apply update_ne.
Qed.

Lemma local_temp_replace (self : loc) :
  respects (local_to self) (temp_replace_with_repository self).
Proof.
  intros w. unfold temp_replace_with_repository.
  destruct (fs_fails w); simpl; [apply frame_local_to |].
  unfold local_to. simpl. rewrite update_eq.
  split; [| split; auto]. intros r Hr. now apply update_ne.
Qed.

Lemma local_dbnode_save (self : loc) : respects (local_to self) (dbnode_save self).
Proof.
  intros w. unfold dbnode_save.
  destruct (id (_dbnode (heap w self))); simpl.
  - apply frame_local_to.
  - destruct (uuid_taken _ _); simpl; [apply frame_local_to |].
    unfold local_to. simpl. rewrite update_eq.
    split; [| split; auto]. intros r Hr. now apply update_ne.
Qed.

Lemma local_move_attrs_cache (self : loc) :
  respects (local_to self) (move_attrs_cache self).
Proof.
  intros w. unfold move_attrs_cache, bind, read_node.
  destruct (_attrs_cache (heap w self)); simpl; [| apply frame_local_to].
  apply local_to_write; auto.
Qed.

Lemma local_store_cached_input_links (self : loc) (wt : bool) :
  respects (local_to self) (_store_cached_input_links self wt).
Proof.
  pose proof (frame_local_to self) as HR.
  unfold _store_cached_input_links.
  apply respects_bind; [assumption | now apply respects_read |]. intros me.
  destruct (_to_be_stored me); [now apply respects_raise |].
  apply respects_bind; [assumption | now apply respects_check_parents |]. intros _.
  apply respects_bind; [assumption | |].
  { apply respects_session_only; [assumption | apply session_only_add_cached_links]. }
  intros _ w. unfold bind, read_node, write_node.
  destruct wt.
  - rewrite commit_or_rollback_Return. simpl.
    unfold local_to. simpl. rewrite update_eq.
    split; [| split; auto]. intros r Hr. now apply update_ne.
  - simpl. apply local_to_write; auto.
Qed.

Section StoreFrame.

Variable _validate : Node -> option string.
Variable VERDIAUTOGROUP_TYPE : string.

Lemma local_store_try (self : loc) (wt : bool) :
  respects (local_to self) (store_try self wt).
Proof.
  pose proof (frame_local_to self) as HR.
  unfold store_try.
  apply respects_bind; [assumption | apply local_dbnode_save |]. intros _.
  apply respects_bind; [assumption | apply local_move_attrs_cache |]. intros _.
  apply respects_bind; [assumption | |].
  { intros w. unfold bind, read_node, write_node. simpl.
    apply local_to_write; auto. }
  intros _.
  apply respects_bind; [assumption | |].
  { intros w. unfold bind, read_node, write_node. simpl.
    apply local_to_write; auto. }
  intros _.
  apply respects_bind; [assumption | apply local_store_cached_input_links |].
  intros _. destruct wt; [| now apply respects_ret].
  apply respects_try; [assumption | |].
  - apply respects_session_only; [assumption |].
    intros w. unfold session_commit. destruct (commit_fails _); simpl;
      [now rewrite set_session_id | reflexivity].
  - intros e. destruct e; try now apply respects_raise.
    apply respects_bind; [assumption | now apply respects_print |].
    intros _. apply respects_session_only; [assumption |].
    intros w. reflexivity.
Qed.

Lemma local_store_except (self : loc) (e : exn) :
  respects (local_to self) (store_except self e).
Proof.
  pose proof (frame_local_to self) as HR.
  unfold store_except.
  apply respects_bind; [assumption | apply local_get_temp_folder |]. intros _.
  apply respects_bind; [assumption | apply local_temp_replace |]. intros _.
  now apply respects_raise.
Qed.

(** [store] touches no Python object but the node it is called on. *)
Lemma local_store (self : loc) (wt : bool) :
  respects (local_to self) (store _validate VERDIAUTOGROUP_TYPE self wt).
Proof.
  pose proof (frame_local_to self) as HR.
  unfold store.
  apply respects_bind; [assumption | now apply respects_read |]. intros me.
  destruct (_to_be_stored me); [| now apply respects_ret].
  apply respects_bind; [assumption | now apply respects_validate |]. intros _.
  apply respects_bind; [assumption | now apply respects_check_parents |]. intros _.
  apply respects_bind; [assumption | apply local_get_temp_folder |]. intros _.
  apply respects_bind; [assumption | apply local_repository_replace |]. intros _.
  apply respects_bind; [assumption | |].
  { apply respects_try; [assumption | apply local_store_try |].
    intros e. apply local_store_except. }
  intros _.
  apply respects_bind; [assumption | |].
  { apply respects_session_only; [assumption | apply session_only_autogroup_hook]. }
  intros _. now apply respects_ret.
Qed.

Lemma stored_kept_store (self : loc) (wt : bool) :
  respects stored_kept (store _validate VERDIAUTOGROUP_TYPE self wt).
Proof.
  intros w. pose proof (local_store self wt w) as H.
  destruct (store _ _ self wt w); simpl in *; try exact I;
    eapply local_to_stored_kept; eassumption.
Qed.

End StoreFrame.

(** * Storing a node with its parents *)

Lemma check_grandparents_cases (links : list (string * (loc * LinkType)))
    (w : World) :
  (check_grandparents links w = Return tt w /\
   forall link, In link links ->
     forall link2, In link2 (_inputlinks_cache (heap w (fst (snd link)))) ->
       _to_be_stored (heap w (fst (snd link2))) = false)
  \/
  (check_grandparents links w = Raise (ModificationNotAllowed msg_grandparents) w /\
   exists link link2,
     In link links /\
     In link2 (_inputlinks_cache (heap w (fst (snd link)))) /\
     _to_be_stored (heap w (fst (snd link2))) = true).
Proof.
  induction links as [| [l [parent link_type]] rest IH].
  - left. split; [reflexivity |]. intros link [].
  - simpl. unfold bind, try_except.
    destruct (check_parents_cases parent w) as [[-> Hok] | [-> (link2 & Hin & Hflag)]].
    + destruct IH as [[-> Hrest] | [-> (link & link2 & Hin & Hin2 & Hflag)]].
      * left. split; [reflexivity |].
        intros link [<- | Hin]; [exact Hok | now apply Hrest].
      * right. split; [reflexivity |]. exists link, link2. auto.
    + right. split; [reflexivity |].
      exists (l, (parent, link_type)), link2. auto.
Qed.

Section StoreAllFacts.

Variable _validate : Node -> option string.
Variable VERDIAUTOGROUP_TYPE : string.

Lemma stored_kept_store_parents (links : list (string * (loc * LinkType))) :
  respects stored_kept (store_parents _validate VERDIAUTOGROUP_TYPE links).
Proof.
  pose proof frame_stored_kept as HR.
  induction links as [| [l [parent link_type]] rest IH]; simpl.
  - now apply respects_ret.
  - apply respects_bind; [assumption | now apply respects_read |]. intros p.
    apply respects_bind; [assumption | | intros _; exact IH].
    destruct (is_stored p); [now apply respects_ret |].
    apply respects_bind; [assumption | apply stored_kept_store |].
    intros _. now apply respects_ret.
Qed.

(** When the loop over the parents completes, every parent is stored. *)
Lemma store_parents_Return (links : list (string * (loc * LinkType))) :
  forall w w',
    store_parents _validate VERDIAUTOGROUP_TYPE links w = Return tt w' ->
    stored_kept w w' /\
    forall link, In link links -> _to_be_stored (heap w' (fst (snd link))) = false.
Proof.
  induction links as [| [l [parent link_type]] rest IH]; intros w w' H.
  - simpl in H. inversion H. split; [apply frame_stored_kept | intros link []].
  - simpl in H. unfold bind at 1, read_node at 1 in H. unfold bind at 1 in H.
    assert (Hhead : exists w1,
              (if is_stored (heap w parent) then ret tt
               else bind (store _validate VERDIAUTOGROUP_TYPE parent false)
                         (fun _ => ret tt)) w = Return tt w1 /\
              stored_kept w w1 /\ _to_be_stored (heap w1 parent) = false /\
              store_parents _validate VERDIAUTOGROUP_TYPE rest w1 = Return tt w').
    { destruct (is_stored (heap w parent)) eqn:Hp.
      - exists w. split; [reflexivity |]. split; [apply frame_stored_kept |].
        split; [| exact H]. unfold is_stored in Hp. now apply negb_true_iff in Hp.
      - unfold bind at 1 in H. unfold bind at 1.
        pose proof (stored_kept_store _validate VERDIAUTOGROUP_TYPE parent false w)
          as Hkept.
        destruct (store _validate VERDIAUTOGROUP_TYPE parent false w)
          as [r w1 | e w1 |] eqn:E; [| discriminate | discriminate].
        exists w1. split; [reflexivity |]. split; [exact Hkept |].
        split; [| exact H].
        unfold is_stored in Hp. apply negb_false_iff in Hp.
        now apply store_unstored_Return in E as (_ & c & _ & Hf & _). }
    destruct Hhead as (w1 & _ & Hkept1 & Hparent & Hrest).
    apply IH in Hrest as [Hkept2 Hall].
    split.
    + destruct frame_stored_kept as (_ & Htrans & _). eauto.
    + intros link [<- | Hin]; [simpl; now apply Hkept2 | now apply Hall].
Qed.

(** X6: [store_all] does not accept a stored node (where [store] is a
    no-op), nor a node one of whose parents has an unstored source among
    its own cached links: in both cases it raises
    ModificationNotAllowed, and nothing at all has changed, no parent
    has been stored. *)
Theorem store_all_refuses_stored_and_grandparents (w : World) (self : loc)
    (with_transaction : bool) :
  (_to_be_stored (heap w self) = false ->
   store_all _validate VERDIAUTOGROUP_TYPE self with_transaction w =
     Raise (ModificationNotAllowed msg_already_stored) w) /\
  (_to_be_stored (heap w self) = true ->
   forall link link2,
     In link (_inputlinks_cache (heap w self)) ->
     In link2 (_inputlinks_cache (heap w (fst (snd link)))) ->
     _to_be_stored (heap w (fst (snd link2))) = true ->
     store_all _validate VERDIAUTOGROUP_TYPE self with_transaction w =
       Raise (ModificationNotAllowed msg_grandparents) w).
Proof.
  split.
  - intros Hflag. unfold store_all, bind, read_node. now rewrite Hflag.
  - intros Hflag link link2 Hin Hin2 Hun.
    unfold store_all. unfold bind at 1, read_node at 1. rewrite Hflag.
    unfold bind at 1.
    destruct (check_grandparents_cases (_inputlinks_cache (heap w self)) w)
      as [[_ Hall] | [-> _]]; [| reflexivity].
    rewrite (Hall link Hin link2 Hin2) in Hun. discriminate.
Qed.

(** X7: When [store_all] returns, the node and every source of its cached
    links are stored, the link cache of the node is empty, and no node
    that was stored before has become unstored. *)
Theorem store_all_stores_node_and_parents (w w' : World) (self r : loc)
    (with_transaction : bool) :
  store_all _validate VERDIAUTOGROUP_TYPE self with_transaction w = Return r w' ->
  r = self /\
  _to_be_stored (heap w self) = true /\
  _to_be_stored (heap w' self) = false /\
  _inputlinks_cache (heap w' self) = [] /\
  (forall link, In link (_inputlinks_cache (heap w self)) ->
                _to_be_stored (heap w' (fst (snd link))) = false) /\
  stored_kept w w'.
Proof.
  destruct frame_stored_kept as (Hrefl & Htrans & _).
  unfold store_all. unfold bind at 1, read_node at 1.
  destruct (_to_be_stored (heap w self)) eqn:Hflag; [| discriminate].
  unfold bind at 1.
  destruct (check_grandparents_cases (_inputlinks_cache (heap w self)) w)
    as [[-> _] | [-> _]]; [| discriminate].
  unfold bind at 1. unfold _store_input_nodes at 1.
  unfold bind at 1, read_node at 1. rewrite Hflag.
  destruct (store_parents _ _ _ w) as [[] w1 | |] eqn:E1;
    [| discriminate | discriminate].
  apply store_parents_Return in E1 as [Hkept1 Hparents1].
  unfold bind at 1.
  pose proof (stored_kept_store _validate VERDIAUTOGROUP_TYPE self false w1) as Hkept2.
  destruct (store _validate VERDIAUTOGROUP_TYPE self false w1)
    as [r2 w2 | |] eqn:E2; [| discriminate | discriminate].
  simpl in Hkept2.
  assert (Hself2 : _to_be_stored (heap w2 self) = false).
  { destruct (_to_be_stored (heap w1 self)) eqn:Hf1.
    - now apply store_unstored_Return in E2 as (_ & c & _ & Hf & _).
    - now apply Hkept2. }
  unfold bind at 1.
  pose proof (local_store_cached_input_links self false w2) as Hlocal3.
  destruct (_store_cached_input_links self false w2) as [[] w3 | |] eqn:E3;
    [| discriminate | discriminate].
  simpl in Hlocal3. apply local_to_stored_kept in Hlocal3.
  apply store_cached_input_links_node in E3.
  unfold bind at 1.
  assert (Hlast : forall w4,
            (if with_transaction then commit_or_rollback else ret tt) w3
              = Return tt w4 -> heap w4 = heap w3).
  { intros w4 H4. destruct with_transaction.
    - rewrite commit_or_rollback_Return in H4. now inversion H4.
    - now inversion H4. }
  destruct ((if with_transaction then commit_or_rollback else ret tt) w3)
    as [[] w4 | |] eqn:E4; [| discriminate | discriminate].
  specialize (Hlast w4 eq_refl).
  unfold ret. intros H. inversion H. subst r w'. clear H.
  split; [reflexivity |]. split; [reflexivity |].
  rewrite Hlast, E3. simpl.
  split; [exact Hself2 |]. split; [reflexivity |].
  split.
  - intros link Hin. specialize (Hparents1 link Hin).
    apply Hkept2 in Hparents1. apply Hlocal3 in Hparents1.
    exact Hparents1.
  - intros r0 Hr0. apply Hkept1 in Hr0. apply Hkept2 in Hr0.
    apply Hlocal3 in Hr0. now rewrite Hlast.
Qed.

End StoreAllFacts.

Lemma store_all_refuses_stored_and_grandparents_witness :
  store_all accept_all "auto.run" 0%nat true (linked_world []) =
    Raise (ModificationNotAllowed msg_already_stored) (linked_world []) /\
  store_all accept_all "auto.run" 2%nat true chain_world =
    Raise (ModificationNotAllowed msg_grandparents) chain_world.
Proof.
  split.
  - apply (store_all_refuses_stored_and_grandparents accept_all "auto.run"
             (linked_world []) 0%nat true).
    reflexivity.
  - apply (proj2 (store_all_refuses_stored_and_grandparents accept_all "auto.run"
                    chain_world 2%nat true)
             eq_refl ("parent", (1%nat, INPUT)) ("in", (0%nat, INPUT)));
      [now left | now left | reflexivity].
Defined.

Lemma store_all_stores_node_and_parents_witness :
  exists w',
    store_all accept_all "auto.run" 1%nat true orphan_world = Return 1%nat w' /\
    _to_be_stored (heap w' 0%nat) = false /\
    _to_be_stored (heap w' 1%nat) = false /\
    _inputlinks_cache (heap w' 1%nat) = [] /\
    db_links (committed (session w')) = [mkDbLink (Some 1) (Some 2) "parent" INPUT].
Proof.
  destruct (store_all accept_all "auto.run" 1%nat true orphan_world)
    as [r w' | e w' |] eqn:E.
  - destruct (store_all_stores_node_and_parents _ _ _ _ _ _ _ E)
      as (-> & _ & Hself & Hcache & Hparents & _).
    exists w'. split; [reflexivity |].
    split; [exact (Hparents ("parent", (0%nat, INPUT)) (or_introl eq_refl)) |].
    split; [exact Hself |]. split; [exact Hcache |].
    vm_compute in E. inversion E. reflexivity.
  - exfalso. vm_compute in E. discriminate.
  - exfalso. vm_compute in E. discriminate.
Defined.

(** * Attributes of an unstored node *)

(** X8: Set, then get, before the node is stored: the value set under a key
    is the one [get_attr] returns for it, whatever default is passed;
    the other keys read as before, and nothing but the cache of the node
    has changed. *)
Theorem set_attr_then_get_attr_unstored (w : World) (self : loc) (key : string)
    (v : value) (c : gmap string value) :
  _to_be_stored (heap w self) = true ->
  _attrs_cache (heap w self) = Some c ->
  exists w1,
    _set_attr self key v w = Return tt w1 /\
    (forall default, get_attr self key default w1 = Return v w1) /\
    (forall key' default,
       key' <> key ->
       returned (get_attr self key' default w1)
       = returned (get_attr self key' default w)) /\
    heap w1 self = set_attrs_cache (heap w self) (Some (<[key := v]> c)) /\
    (forall r, r <> self -> heap w1 r = heap w r) /\
    session w1 = session w /\ repository w1 = repository w.
Proof.
  intros Hflag Hcache.
  eexists. split; [exact (set_attr_unstored self key v w c Hflag Hcache) |].
  rewrite deepcopy_eq.
  split; [| split; [| split; [| split; [| split]]]].
  - intros default. unfold get_attr, bind, read_node. simpl.
    rewrite update_eq. simpl. rewrite Hflag, lookup_insert_eq. reflexivity.
  - intros key' default Hne. unfold get_attr, bind, read_node. simpl.
    rewrite update_eq. simpl. rewrite Hflag, Hcache.
    rewrite lookup_insert_ne by congruence.
    destruct (c !! key'); [reflexivity |]. destruct default; reflexivity.
  - simpl. now rewrite update_eq.
  - intros r Hr. simpl. now apply update_ne.
  - reflexivity.
  - reflexivity.
Qed.

Lemma set_attr_then_get_attr_unstored_witness :
  exists w1,
    _set_attr 1%nat "y" (VStr "s") ready_world = Return tt w1 /\
    get_attr 1%nat "y" None w1 = Return (VStr "s") w1 /\
    returned (get_attr 1%nat "x" None w1) = Some (VInt 1).
Proof.
  destruct (set_attr_then_get_attr_unstored ready_world 1%nat "y" (VStr "s")
              (<["x" := VInt 1]> ∅) eq_refl eq_refl)
    as (w1 & Hset & Hget & Hother & _).
  exists w1. split; [exact Hset |]. split; [apply Hget |].
  rewrite Hother by discriminate. vm_compute. reflexivity.
Defined.

(** X9: Deleting an attribute of an unstored node: a key that is not in the
    cache gives AttributeError and changes nothing; a key that is there
    is removed from the cache, after which [get_attr] raises
    AttributeError for it, or returns the default when one is given.
    Setting a new key and deleting it again gives back the cache as it
    was. *)
Theorem del_attr_unstored (dbnode_del_attr : DbNode -> string -> DbNode + exn)
    (w : World) (self : loc) (key : string) (c : gmap string value) :
  _to_be_stored (heap w self) = true ->
  _attrs_cache (heap w self) = Some c ->
  (c !! key = None ->
   _del_attr dbnode_del_attr self key w = Raise (AttributeError msg_no_attribute) w /\
   forall v w1,
     _set_attr self key v w = Return tt w1 ->
     exists w2,
       _del_attr dbnode_del_attr self key w1 = Return tt w2 /\
       heap w2 self = heap w self) /\
  (is_Some (c !! key) ->
   exists w1,
     _del_attr dbnode_del_attr self key w = Return tt w1 /\
     heap w1 self = set_attrs_cache (heap w self) (Some (delete key c)) /\
     get_attr self key None w1 = Raise (AttributeError msg_no_attribute) w1 /\
     forall d, get_attr self key (Some d) w1 = Return d w1).
Proof.
  intros Hflag Hcache. split.
  - intros Hkey. split.
    + unfold _del_attr, bind, read_node. now rewrite Hflag, Hcache, Hkey.
    + intros v w1 Hset.
      rewrite (set_attr_unstored self key v w c Hflag Hcache) in Hset.
      inversion Hset. subst w1. clear Hset.
      eexists. split.
      * unfold _del_attr, bind, read_node, write_node. simpl.
        rewrite update_eq. simpl. rewrite Hflag, lookup_insert_eq. reflexivity.
      * simpl. rewrite !update_eq. rewrite delete_insert_eq, delete_id by assumption.
        destruct (heap w self) as [f d ac l t]. simpl in *. now subst.
  - intros [v Hkey]. eexists. split; [| split; [| split]].
    + unfold _del_attr, bind, read_node, write_node. now rewrite Hflag, Hcache, Hkey.
    + simpl. now rewrite update_eq.
    + unfold get_attr, bind, read_node. simpl. rewrite update_eq. simpl.
      rewrite Hflag, lookup_delete_eq. reflexivity.
    + intros d. unfold get_attr, bind, read_node. simpl. rewrite update_eq. simpl.
      rewrite Hflag, lookup_delete_eq. reflexivity.
Qed.

Lemma del_attr_unstored_witness :
  _del_attr (fun d _ => inl d) 1%nat "y" ready_world =
    Raise (AttributeError msg_no_attribute) ready_world /\
  exists w1,
    _del_attr (fun d _ => inl d) 1%nat "x" ready_world = Return tt w1 /\
    get_attr 1%nat "x" (Some (VInt 0)) w1 = Return (VInt 0) w1.
Proof.
  destruct (del_attr_unstored (fun d _ => inl d) ready_world 1%nat "y"
              (<["x" := VInt 1]> ∅) eq_refl eq_refl) as [Hmissing _].
  destruct (del_attr_unstored (fun d _ => inl d) ready_world 1%nat "x"
              (<["x" := VInt 1]> ∅) eq_refl eq_refl) as [_ Hthere].
  split.
  - apply Hmissing. vm_compute. reflexivity.
  - destruct Hthere as (w1 & Hdel & _ & _ & Hget).
    + exists (VInt 1). vm_compute. reflexivity.
    + exists w1. split; [exact Hdel | apply Hget].
Defined.

(** X10: Unlike [get_extra], [get_attr] tells a default that was passed from
    one that was not: when the key is absent (from the cache of an
    unstored node, or from the attributes of a stored one) every default
    is returned, the falsy ones included, and AttributeError is raised
    only when no default is given.  The world is left as it was. *)
Theorem get_attr_returns_any_default (w : World) (self : loc) (key : string)
    (m : gmap string value) :
  (if _to_be_stored (heap w self)
   then _attrs_cache (heap w self)
   else attributes (_dbnode (heap w self))) = Some m ->
  m !! key = None ->
  (forall d, get_attr self key (Some d) w = Return d w) /\
  get_attr self key None w = Raise (AttributeError msg_no_attribute) w.
Proof.
  intros Hstore Hkey. unfold get_attr, bind, read_node, utils_get_attr.
  destruct (_to_be_stored (heap w self)); rewrite Hstore, Hkey; split; reflexivity.
Qed.

Lemma get_attr_returns_any_default_witness :
  get_attr 1%nat "y" (Some (VInt 0)) ready_world = Return (VInt 0) ready_world /\
  get_attr 0%nat "y" (Some (VStr "")) ready_world = Return (VStr "") ready_world /\
  get_attr 0%nat "y" None ready_world =
    Raise (AttributeError msg_no_attribute) ready_world.
Proof.
  split; [| split].
  - apply (get_attr_returns_any_default ready_world 1%nat "y" (<["x" := VInt 1]> ∅)
             eq_refl). vm_compute. reflexivity.
  - apply (get_attr_returns_any_default ready_world 0%nat "y" ∅ eq_refl eq_refl).
  - apply (get_attr_returns_any_default ready_world 0%nat "y" ∅ eq_refl eq_refl).
Defined.

(** * Replacing a link *)

Lemma remove_first_labelled_split (l : string) (before after : list DbLink)
    (old : DbLink) :
  label old = l ->
  (forall r, In r before -> label r <> l) ->
  remove_first_labelled l (before ++ old :: after) = before ++ after.
Proof.
  intros Hold Hbefore. induction before as [| r before IH]; simpl.
  - subst l. now rewrite String.eqb_refl.
  - destruct (String.eqb (label r) l) eqn:E.
    + apply String.eqb_eq in E. exfalso. apply (Hbefore r); [now left | assumption].
    + f_equal. apply IH. intros r' Hr'. apply Hbefore. now right.
Qed.

Lemma add_dblink_from_labelled_cases (w : World) (self src : loc) (l : string)
    (link_type : LinkType) :
  linkable w self src ->
  (is_strong link_type = true ->
   path_exists (cur (session w)) (id (_dbnode (heap w self)))
               (id (_dbnode (heap w src))) = false) ->
  _add_dblink_from self src (Some l) link_type w =
    if link_insert_allowed (session w) (link_row w self src l link_type)
    then Return tt (append_links w [link_row w self src l link_type])
    else Raise DuplicateLinkError w.
Proof.
  intros (Hne & Hself & Hsrc) Hpath.
  rewrite add_dblink_from_stored by assumption.
  unfold bind, check_cycle.
  destruct (is_strong link_type).
  - rewrite Hpath by reflexivity.
    destruct (do_create_link_cases self src l link_type w) as [[-> ->] | [-> ->]];
      reflexivity.
  - destruct (do_create_link_cases self src l link_type w) as [[-> ->] | [-> ->]];
      reflexivity.
Qed.

(** X11: On a label that is free, [_replace_dblink_from] is the plain insert
    of its first attempt, and that attempt does not pass [link_type] on:
    the row is written with the type UNSPECIFIED whatever type was asked
    for.  Nothing is committed on this path. *)
Theorem replace_link_free_label_drops_type (w : World) (self src : loc)
    (l : string) (link_type : LinkType) :
  linkable w self src ->
  link_insert_allowed (session w) (link_row w self src l UNSPECIFIED) = true ->
  exists w',
    _replace_dblink_from self src (Some l) link_type w = Return tt w' /\
    db_links (cur (session w')) =
      db_links (cur (session w))
      ++ [mkDbLink (id (_dbnode (heap w src))) (id (_dbnode (heap w self))) l
                   UNSPECIFIED] /\
    committed (session w') = committed (session w) /\
    heap w' = heap w.
Proof.
  intros Hlink Hok.
  exists (append_links w [link_row w self src l UNSPECIFIED]).
  split; [| repeat split].
  unfold _replace_dblink_from, try_except.
  rewrite add_dblink_from_labelled_cases by (auto; discriminate).
  now rewrite Hok.
Qed.

Lemma replace_link_free_label_drops_type_witness :
  exists w',
    _replace_dblink_from 0%nat 1%nat (Some "back") CREATE (linked_world [])
      = Return tt w' /\
    db_links (cur (session w')) =
      [forward_link; mkDbLink (Some 2) (Some 1) "back" UNSPECIFIED].
Proof.
  assert (Hl : linkable (linked_world []) 0%nat 1%nat).
  { split; [vm_compute; discriminate | split; reflexivity]. }
  destruct (replace_link_free_label_drops_type (linked_world []) 0%nat 1%nat
              "back" CREATE Hl) as (w' & Hres & Hlinks & _).
  - vm_compute. reflexivity.
  - exists w'. split; [exact Hres |]. rewrite Hlinks. reflexivity.
Defined.

(** X12: On a label that the destination already uses, and that no other link
    in the table bears: the first attempt is refused, the old row is
    deleted, the new row is written with the type asked for, and the
    session is committed.  The link table is the old one without the old
    row, followed by the new row. *)
Theorem replace_link_taken_label (w : World) (self src : loc) (l : string)
    (link_type : LinkType) (before after : list DbLink) (old : DbLink) :
  linkable w self src ->
  unseen_links (session w) = [] ->
  commit_fails (session w) = false ->
  row_exists (cur (session w)) (id (_dbnode (heap w self))) = true ->
  row_exists (cur (session w)) (id (_dbnode (heap w src))) = true ->
  (is_strong link_type = true ->
   path_exists (cur (session w)) (id (_dbnode (heap w self)))
               (id (_dbnode (heap w src))) = false) ->
  db_links (cur (session w)) = before ++ old :: after ->
  label old = l ->
  output_id old = id (_dbnode (heap w self)) ->
  (forall r, In r (before ++ after) -> label r <> l) ->
  exists w',
    _replace_dblink_from self src (Some l) link_type w = Return tt w' /\
    db_links (cur (session w')) =
      before ++ after ++ [link_row w self src l link_type] /\
    committed (session w') = cur (session w') /\
    heap w' = heap w.
Proof.
  intros Hlink Hunseen Hcommit Hdest Hsource Hpath Hlinks Hold Hout Hothers.
  assert (Hself_id : exists k, id (_dbnode (heap w self)) = Some k).
  { unfold row_exists in Hdest. destruct (id (_dbnode (heap w self))); [eauto | discriminate]. }
  destruct Hself_id as [k Hk].
  (* the first attempt is refused *)
  assert (Hfirst : _add_dblink_from self src (Some l) UNSPECIFIED w
                   = Raise DuplicateLinkError w).
  { rewrite add_dblink_from_labelled_cases by (auto; discriminate).
    assert (Hno : link_insert_allowed (session w)
                    (link_row w self src l UNSPECIFIED) = false).
    { unfold link_insert_allowed. rewrite Hlinks.
      assert (Hc : existsb (same_dest_label (link_row w self src l UNSPECIFIED))
                     ((before ++ old :: after) ++ unseen_links (session w)) = true).
      { apply existsb_exists. exists old. split.
        - apply in_or_app. left. apply in_or_app. right. now left.
        - apply same_dest_label_spec. simpl. split; [| now symmetry].
          exists k. rewrite Hout. auto. }
      rewrite Hc. apply andb_false_r. }
    now rewrite Hno. }
  set (w1 := set_session w (set_cur (session w)
               (set_links (cur (session w)) (before ++ after)))).
  assert (Hrem : _remove_dblink_from self (Some l) w = Return tt w1).
  { unfold _remove_dblink_from. rewrite Hlinks, remove_first_labelled_split;
      [reflexivity | assumption |].
    intros r Hr. apply Hothers, in_or_app. now left. }
  assert (Hlink1 : linkable w1 self src) by exact Hlink.
  assert (Hok : link_insert_allowed (session w1) (link_row w1 self src l link_type)
                = true).
  { unfold link_insert_allowed. simpl.
    change (row_exists (set_links (cur (session w)) (before ++ after))
              (id (_dbnode (heap w src))))
      with (row_exists (cur (session w)) (id (_dbnode (heap w src)))).
    change (row_exists (set_links (cur (session w)) (before ++ after))
              (id (_dbnode (heap w self))))
      with (row_exists (cur (session w)) (id (_dbnode (heap w self)))).
    rewrite Hsource, Hdest, Hunseen, app_nil_r. simpl.
    apply negb_true_iff.
    destruct (existsb _ (before ++ after)) eqn:E; [| reflexivity].
    apply existsb_exists in E as (r & Hin & Hsame).
    apply same_dest_label_spec in Hsame as [_ Hlab]. simpl in Hlab.
    exfalso. apply (Hothers r Hin). now symmetry. }
  assert (Hadd : _add_dblink_from self src (Some l) link_type w1
                 = Return tt (append_links w1 [link_row w1 self src l link_type])).
  { rewrite (add_dblink_from_labelled_cases w1 self src l link_type Hlink1)
      by exact Hpath.
    now rewrite Hok. }
  unfold _replace_dblink_from, try_except. rewrite Hfirst.
  unfold DuplicateLinkError, bind. rewrite Hrem, Hadd.
  unfold session_commit. simpl. rewrite Hcommit.
  eexists. split; [reflexivity |]. simpl.
  split; [now rewrite <- app_assoc |]. split; reflexivity.
Qed.

Lemma replace_link_taken_label_witness :
  exists w',
    _replace_dblink_from 1%nat 0%nat (Some "forward") CREATE (linked_world [])
      = Return tt w' /\
    db_links (cur (session w')) = [mkDbLink (Some 1) (Some 2) "forward" CREATE] /\
    committed (session w') = cur (session w').
Proof.
  assert (Hl : linkable (linked_world []) 1%nat 0%nat).
  { split; [vm_compute; discriminate | split; reflexivity]. }
  destruct (replace_link_taken_label (linked_world []) 1%nat 0%nat "forward" CREATE
              [] [] forward_link Hl eq_refl eq_refl eq_refl eq_refl
              (fun _ => eq_refl) eq_refl eq_refl eq_refl)
    as (w' & Hres & Hlinks & Hcommitted & _).
  - intros r [].
  - exists w'. split; [exact Hres |]. split; [| exact Hcommitted].
    rewrite Hlinks. reflexivity.
Defined.

(** X13: The deletion of [_remove_dblink_from] looks at the label only.  When
    the label is refused for the destination and the first row of the
    table that bears it leads to another node, that row is the one
    deleted; the retry is then refused as well, so the session is rolled
    back to the last committed state (with it every change of the
    session that was not committed) and the error is raised again. *)
Theorem replace_link_deleting_foreign_row_rolls_back (w : World)
    (self src : loc) (l : string) (link_type : LinkType)
    (before after : list DbLink) (old : DbLink) :
  linkable w self src ->
  link_insert_allowed (session w) (link_row w self src l UNSPECIFIED) = false ->
  db_links (cur (session w)) = before ++ old :: after ->
  label old = l ->
  (forall r, In r before -> label r <> l) ->
  output_id old <> id (_dbnode (heap w self)) ->
  exists e w',
    _replace_dblink_from self src (Some l) link_type w = Raise e w' /\
    (e = DuplicateLinkError \/ e = CycleError) /\
    cur (session w') = committed (session w) /\
    committed (session w') = committed (session w) /\
    heap w' = heap w.
Proof.
  intros Hlink Hno Hlinks Hold Hbefore Hforeign.
  assert (Hfirst : _add_dblink_from self src (Some l) UNSPECIFIED w
                   = Raise DuplicateLinkError w).
  { rewrite add_dblink_from_labelled_cases by (auto; discriminate). now rewrite Hno. }
  set (w1 := set_session w (set_cur (session w)
               (set_links (cur (session w)) (before ++ after)))).
  assert (Hrem : _remove_dblink_from self (Some l) w = Return tt w1).
  { unfold _remove_dblink_from.
    rewrite Hlinks, remove_first_labelled_split by assumption. reflexivity. }
  assert (Hlink1 : linkable w1 self src) by exact Hlink.
  assert (Hno1 : link_insert_allowed (session w1) (link_row w1 self src l link_type)
                 = false).
  { unfold link_insert_allowed in *. simpl in *.
    change (row_exists (set_links (cur (session w)) (before ++ after))
              (id (_dbnode (heap w src))))
      with (row_exists (cur (session w)) (id (_dbnode (heap w src)))).
    change (row_exists (set_links (cur (session w)) (before ++ after))
              (id (_dbnode (heap w self))))
      with (row_exists (cur (session w)) (id (_dbnode (heap w self)))).
    destruct (row_exists (cur (session w)) (id (_dbnode (heap w src))));
      [| reflexivity].
    destruct (row_exists (cur (session w)) (id (_dbnode (heap w self))));
      [| reflexivity].
    simpl in *. apply negb_false_iff in Hno. apply negb_false_iff.
    apply existsb_exists in Hno as (r & Hin & Hsame).
    apply existsb_exists. exists r. split; [| exact Hsame].
    rewrite Hlinks in Hin.
    apply in_app_or in Hin as [Hin | Hin]; [| apply in_or_app; now right].
    apply in_or_app. left.
    apply in_app_or in Hin as [Hin | [<- | Hin]].
    - apply in_or_app. now left.
    - exfalso. apply same_dest_label_spec in Hsame as [(k & Hk1 & Hk2) _].
      simpl in Hk1. apply Hforeign. congruence.
    - apply in_or_app. now right. }
  unfold _replace_dblink_from, try_except. rewrite Hfirst.
  unfold DuplicateLinkError, bind. rewrite Hrem.
  destruct (is_strong link_type &&
            path_exists (cur (session w1)) (id (_dbnode (heap w1 self)))
                        (id (_dbnode (heap w1 src)))) eqn:Hc.
  - apply andb_true_iff in Hc as [Hs Hp].
    assert (Hadd : _add_dblink_from self src (Some l) link_type w1
                   = Raise CycleError w1).
    { destruct Hlink1 as (Hne & Hf1 & Hf2).
      rewrite add_dblink_from_stored by assumption.
      unfold bind, check_cycle. now rewrite Hs, Hp. }
    rewrite Hadd. unfold session_rollback, raise. simpl.
    eexists _, _. split; [reflexivity |]. auto.
  - assert (Hadd : _add_dblink_from self src (Some l) link_type w1
                   = Raise DuplicateLinkError w1).
    { rewrite (add_dblink_from_labelled_cases w1 self src l link_type Hlink1).
      - now rewrite Hno1.
      - intros Hs. rewrite Hs in Hc. exact Hc. }
    rewrite Hadd. unfold session_rollback, raise. simpl.
    eexists _, _. split; [reflexivity |]. auto.
Qed.

Lemma replace_link_deleting_foreign_row_rolls_back_witness :
  exists w',
    _replace_dblink_from 1%nat 0%nat (Some "data") INPUT shared_label_world
      = Raise DuplicateLinkError w' /\
    cur (session w') = committed (session shared_label_world).
Proof.
  assert (Hl : linkable shared_label_world 1%nat 0%nat).
  { split; [vm_compute; discriminate | split; reflexivity]. }
  destruct (replace_link_deleting_foreign_row_rolls_back shared_label_world
              1%nat 0%nat "data" INPUT []
              [mkDbLink (Some 1) (Some 2) "data" INPUT]
              (mkDbLink (Some 1) (Some 3) "data" INPUT) Hl)
    as (e & w' & Hres & _ & Hcur & _).
  - vm_compute. reflexivity.
  - reflexivity.
  - reflexivity.
  - intros r [].
  - vm_compute. discriminate.
  - assert (e = DuplicateLinkError) as ->.
    { assert (H : Raise e w' = _replace_dblink_from 1%nat 0%nat (Some "data") INPUT
                                 shared_label_world) by (symmetry; exact Hres).
      vm_compute in H. now inversion H. }
    exists w'. split; [exact Hres | exact Hcur].
Defined.

(** * The states a store leaves *)

Lemma get_temp_folder_detail (self : loc) (w : World) :
  exists w',
    _get_temp_folder self w = Return (default [] (_temp_folder (heap w self))) w' /\
    heap w' self =
      set_temp_folder (heap w self) (Some (default [] (_temp_folder (heap w self)))) /\
    repository w' = repository w /\ fs_fails w' = fs_fails w /\
    session w' = session w /\ current_autogroup w' = current_autogroup w /\
    stdout w' = stdout w /\
    forall r, r <> self -> heap w' r = heap w r.
Proof.
  unfold _get_temp_folder.
  destruct (heap w self) as [f d c l t] eqn:E. simpl.
  destruct t as [files |]; simpl.
  - exists w. rewrite E. auto 9.
  - eexists. split; [reflexivity |]. simpl. rewrite update_eq.
    repeat (split; [reflexivity |]). intros r Hr. now apply update_ne.
Qed.

Lemma same_repository_store_cached_input_links (self : loc) (wt : bool) :
  respects same_repository (_store_cached_input_links self wt).
Proof.
  pose proof frame_same_repository as HR.
  unfold _store_cached_input_links.
  apply respects_bind; [assumption | now apply respects_read |]. intros me.
  destruct (_to_be_stored me); [now apply respects_raise |].
  apply respects_bind; [assumption | now apply respects_check_parents |]. intros _.
  apply respects_bind; [assumption | |].
  { apply respects_session_only; [assumption | apply session_only_add_cached_links]. }
  intros _ w. unfold bind, read_node, write_node.
  destruct wt; [rewrite commit_or_rollback_Return |]; reflexivity.
Qed.

Lemma same_repository_store_try (self : loc) (wt : bool) :
  respects same_repository (store_try self wt).
Proof.
  pose proof frame_same_repository as HR.
  unfold store_try.
  apply respects_bind; [assumption | |].
  { intros w. unfold dbnode_save. destruct (id _); [reflexivity |].
    destruct (uuid_taken _ _); reflexivity. }
  intros _. apply respects_bind; [assumption | |].
  { intros w. unfold move_attrs_cache, bind, read_node.
    destruct (_attrs_cache _); reflexivity. }
  intros _. apply respects_bind; [assumption | intros w; reflexivity |].
  intros _. apply respects_bind; [assumption | intros w; reflexivity |].
  intros _.
  apply respects_bind;
    [assumption | apply same_repository_store_cached_input_links |].
  intros _. destruct wt; [| now apply respects_ret].
  apply respects_try; [assumption | |].
  - intros w. unfold session_commit. destruct (commit_fails _); reflexivity.
  - intros e. destruct e; try now apply respects_raise.
    apply respects_bind; [assumption | now apply respects_print |].
    intros _ w. reflexivity.
Qed.

Lemma dbnode_save_detail (self : loc) (w w' : World) (u : unit) :
  dbnode_save self w = Return u w' ->
  exists i,
    heap w' self = set_dbnode (heap w self) (set_id (_dbnode (heap w self)) (Some i)).
Proof.
  unfold dbnode_save.
  destruct (heap w self) as [f d c l t] eqn:E. destruct d as [i u0 ty a x v].
  simpl. destruct i as [i |].
  - intros H. inversion H. exists i. simpl. rewrite E. reflexivity.
  - destruct (uuid_taken _ _); [discriminate |].
    intros H. inversion H. simpl. rewrite update_eq. eauto.
Qed.

Section StoreStates.

Variable _validate : Node -> option string.
Variable VERDIAUTOGROUP_TYPE : string.

Lemma store_try_Return_detail (self : loc) (wt : bool) (w w' : World) (u : unit) :
  store_try self wt w = Return u w' ->
  exists c i,
    _attrs_cache (heap w self) = Some c /\
    heap w' self =
      mkNode false
        (set_attributes (set_id (_dbnode (heap w self)) (Some i)) (Some c))
        None [] None.
Proof.
  unfold store_try. unfold bind at 1.
  destruct (dbnode_save self w) as [[] w1 | |] eqn:E1;
    [| discriminate | discriminate].
  pose proof (dbnode_save_node _ _ _ _ E1) as [_ Hcache1].
  apply dbnode_save_detail in E1 as [i Hnode1].
  unfold bind at 1. unfold move_attrs_cache, bind at 1. unfold read_node at 1.
  rewrite Hcache1.
  destruct (_attrs_cache (heap w self)) as [c |]; [| discriminate].
  unfold write_node at 1.
  unfold bind at 1 2. unfold read_node at 1. unfold write_node at 1.
  unfold bind at 1 2. unfold read_node at 1. unfold write_node at 1.
  unfold bind at 1.
  match goal with
  | |- context [_store_cached_input_links self false ?w0] =>
      destruct (_store_cached_input_links self false w0) as [[] w2 | |] eqn:E2;
        [| discriminate | discriminate]
  end.
  apply store_cached_input_links_node in E2.
  simpl in E2. rewrite !update_eq in E2. simpl in E2.
  intros H.
  assert (Hheap : heap w' = heap w2).
  { destruct wt.
    - apply keeps_heap_Return in H; [assumption |].
      apply keeps_heap_try; [apply keeps_heap_commit |].
      intros e. destruct e; try apply keeps_heap_raise.
      apply keeps_heap_bind; [apply keeps_heap_print |].
      intros _. apply keeps_heap_rollback.
    - inversion H. reflexivity. }
  exists c, i. split; [reflexivity |].
  rewrite Hheap, E2, Hnode1. reflexivity.
Qed.

(** X14: The state a successful store leaves.  When [store] returns on an
    unstored node: the node passed its validation, the file system took
    the files and every source of a cached link was stored; the node is
    now flagged as stored, has a primary key, the same uuid, the cached
    attributes as its attributes, no attribute cache, no sandbox and an
    empty link cache; the files that were staged are in the repository
    folder of its uuid; no other Python object has changed. *)
Theorem store_success_state (w w' : World) (self r : loc) (wt : bool) :
  _to_be_stored (heap w self) = true ->
  store _validate VERDIAUTOGROUP_TYPE self wt w = Return r w' ->
  let me := heap w self in
  _validate me = None /\ fs_fails w = false /\
  (forall link, In link (_inputlinks_cache me) ->
                _to_be_stored (heap w (fst (snd link))) = false) /\
  (exists c i,
     _attrs_cache me = Some c /\
     heap w' self =
       mkNode false
         (mkDbNode (Some i) (uuid (_dbnode me)) (node_type (_dbnode me)) (Some c)
                   (extras (_dbnode me)) (nodeversion (_dbnode me)))
         None [] None) /\
  repository w' =
    <[uuid (_dbnode me) := default [] (_temp_folder me)]> (repository w) /\
  (forall r0, r0 <> self -> heap w' r0 = heap w r0).
Proof.
  intros Hflag Hstore me.
  pose proof (local_store _validate VERDIAUTOGROUP_TYPE self wt w) as Hlocal.
  rewrite Hstore in Hlocal. simpl in Hlocal. destruct Hlocal as (Hothers & _ & _).
  revert Hstore. unfold store. unfold bind at 1. unfold read_node at 1.
  rewrite Hflag. unfold bind at 1. unfold validate. fold me.
  destruct (_validate me) eqn:Hvalid; [discriminate |].
  unfold bind at 1.
  destruct (check_parents_cases self w) as [[-> Hparents] | [-> _]];
    [| discriminate].
  unfold bind at 1.
  destruct (get_temp_folder_detail self w)
    as (w1 & -> & Hnode1 & Hrepo1 & Hfs1 & _).
  unfold bind at 1.
  unfold repository_replace_with_temp at 1. rewrite Hfs1.
  destruct (fs_fails w) eqn:Hfs; [discriminate |].
  unfold bind at 1. unfold try_except.
  match goal with
  | |- context [store_try self wt ?w0] =>
      set (w2 := w0);
      pose proof (same_repository_store_try self wt w2) as Hrepo3;
      destruct (store_try self wt w2) as [[] w3 | e w3 |] eqn:E3;
        [| | discriminate]
  end.
  - apply store_try_Return_detail in E3 as (c & i & Hc & Hnode3).
    simpl in Hrepo3. unfold same_repository in Hrepo3.
    unfold bind at 1.
    pose proof (session_only_autogroup_hook VERDIAUTOGROUP_TYPE self w3) as Hag.
    destruct (autogroup_hook VERDIAUTOGROUP_TYPE self w3) as [[] w4 | |];
      [| discriminate | discriminate].
    simpl in Hag. unfold ret. intros H. inversion H. subst r w'. clear H.
    rewrite Hag. simpl.
    unfold w2 in Hc, Hnode3, Hrepo3. simpl in Hc, Hnode3, Hrepo3.
    rewrite update_eq in Hc, Hnode3. rewrite Hnode1 in Hc, Hnode3, Hrepo3.
    simpl in Hc, Hnode3, Hrepo3.
    split; [reflexivity |]. split; [reflexivity |]. split; [exact Hparents |].
    split; [| split].
    + exists c, i. split; [exact Hc | exact Hnode3].
    + rewrite Hrepo3, Hrepo1. reflexivity.
    + intros r0 Hr0. specialize (Hothers r0 Hr0).
      rewrite Hag in Hothers. exact Hothers.
  - destruct (store_except self e w3) as [[] w4 | |] eqn:E4; try discriminate.
    exfalso. exact (store_except_not_Return _ _ _ _ _ E4).
Qed.

End StoreStates.

Lemma store_success_state_witness :
  exists w',
    store accept_all "auto.run" 1%nat true ready_world = Return 1%nat w' /\
    repository w' !! "uuid-B" = Some ["f.txt"] /\
    _temp_folder (heap w' 1%nat) = None /\
    id (_dbnode (heap w' 1%nat)) = Some 2 /\
    heap w' 0%nat = heap ready_world 0%nat.
Proof.
  destruct (store accept_all "auto.run" 1%nat true ready_world)
    as [r w' | e w' |] eqn:E.
  - destruct (store_success_state accept_all "auto.run" ready_world w' 1%nat r true
                eq_refl E) as (_ & _ & _ & (c & i & _ & Hnode) & Hrepo & Hothers).
    assert (r = 1%nat) as -> by (vm_compute in E; now inversion E).
    exists w'. split; [reflexivity |]. split; [| split; [| split]].
    + rewrite Hrepo. vm_compute. reflexivity.
    + rewrite Hnode. reflexivity.
    + vm_compute in E. inversion E. reflexivity.
    + apply Hothers. discriminate.
  - exfalso. vm_compute in E. discriminate.
  - exfalso. vm_compute in E. discriminate.
Defined.

Section StoreFailures.

Variable _validate : Node -> option string.
Variable VERDIAUTOGROUP_TYPE : string.

Lemma check_parents_Return (self : loc) (w : World) :
  (forall link, In link (_inputlinks_cache (heap w self)) ->
                _to_be_stored (heap w (fst (snd link))) = false) ->
  _check_are_parents_stored self w = Return tt w.
Proof.
  intros Hall. destruct (check_parents_cases self w) as [[H _] | [_ (link & Hin & Hf)]];
    [exact H |].
  rewrite (Hall link Hin) in Hf. discriminate.
Qed.

(** X15: A store that fails at the file move.  When the file system refuses
    to replace the repository folder, [store] raises that error before
    any row is written: the session and the repository are as they
    were, no other object has changed, and the node is as it was (still
    unstored, with its attribute and link caches) except that its
    sandbox folder now exists. *)
Theorem store_file_move_failure (w : World) (self : loc) (wt : bool) :
  _to_be_stored (heap w self) = true ->
  _validate (heap w self) = None ->
  (forall link, In link (_inputlinks_cache (heap w self)) ->
                _to_be_stored (heap w (fst (snd link))) = false) ->
  fs_fails w = true ->
  exists w',
    store _validate VERDIAUTOGROUP_TYPE self wt w =
      Raise (IOError "replace_with_folder") w' /\
    heap w' self =
      set_temp_folder (heap w self) (Some (default [] (_temp_folder (heap w self)))) /\
    (forall r, r <> self -> heap w' r = heap w r) /\
    session w' = session w /\ repository w' = repository w.
Proof.
  intros Hflag Hvalid Hparents Hfs.
  destruct (get_temp_folder_detail self w)
    as (w1 & Htmp & Hnode1 & Hrepo1 & Hfs1 & Hsess1 & _ & _ & Hothers1).
  exists w1. split; [| auto].
  unfold store. unfold bind at 1, read_node at 1. rewrite Hflag.
  unfold bind at 1, validate at 1. rewrite Hvalid.
  unfold bind at 1. rewrite (check_parents_Return self w Hparents).
  unfold bind at 1. rewrite Htmp.
  unfold bind at 1, repository_replace_with_temp at 1. now rewrite Hfs1, Hfs.
Qed.

(** X16: A store that fails at the row write.  When the backend refuses the
    node row (here: the uuid is already taken), the handler of [store]
    moves the files back: the error is raised again, the node is as it
    was (still unstored, with its attribute and link caches) with the
    staged files in its sandbox again, the repository has no folder for
    its uuid, the session is as it was and no other object has
    changed. *)
Theorem store_row_write_failure (w : World) (self : loc) (wt : bool) :
  _to_be_stored (heap w self) = true ->
  _validate (heap w self) = None ->
  (forall link, In link (_inputlinks_cache (heap w self)) ->
                _to_be_stored (heap w (fst (snd link))) = false) ->
  fs_fails w = false ->
  id (_dbnode (heap w self)) = None ->
  uuid_taken (cur (session w)) (uuid (_dbnode (heap w self))) = true ->
  exists w',
    store _validate VERDIAUTOGROUP_TYPE self wt w =
      Raise (SQLAlchemyError "duplicate uuid") w' /\
    heap w' self =
      set_temp_folder (heap w self) (Some (default [] (_temp_folder (heap w self)))) /\
    (forall r, r <> self -> heap w' r = heap w r) /\
    session w' = session w /\
    repository w' = delete (uuid (_dbnode (heap w self))) (repository w).
Proof.
  intros Hflag Hvalid Hparents Hfs Hid Htaken.
  destruct (get_temp_folder_detail self w)
    as (w1 & Htmp & Hnode1 & Hrepo1 & Hfs1 & Hsess1 & _ & _ & Hothers1).
  eexists. split.
  - unfold store. unfold bind at 1, read_node at 1. rewrite Hflag.
    unfold bind at 1, validate at 1. rewrite Hvalid.
    unfold bind at 1. rewrite (check_parents_Return self w Hparents).
    unfold bind at 1. rewrite Htmp.
    unfold bind at 1, repository_replace_with_temp at 1. rewrite Hfs1, Hfs.
    unfold bind at 1, try_except, store_try. unfold bind at 1.
    unfold dbnode_save at 1. simpl. rewrite update_eq, Hnode1, Hsess1. simpl.
    rewrite Hid, Htaken.
    unfold store_except, bind, _get_temp_folder, temp_replace_with_repository.
    simpl. rewrite !update_eq. simpl. rewrite Hfs1, Hfs. reflexivity.
  - simpl. rewrite !update_eq. simpl.
    rewrite lookup_insert_eq, delete_insert_eq, Hrepo1. simpl.
    split; [| split; [| split; [exact Hsess1 | reflexivity]]].
    + destruct (heap w self); reflexivity.
    + intros r Hr. rewrite !update_ne by assumption. now apply Hothers1.
Qed.

End StoreFailures.

Lemma store_file_move_failure_witness :
  let w := mkWorld (heap ready_world) (session ready_world) ∅ true None
                   (fun _ => VNone) [] in
  exists w',
    store accept_all "auto.run" 1%nat true w =
      Raise (IOError "replace_with_folder") w' /\
    _to_be_stored (heap w' 1%nat) = true /\
    session w' = session w.
Proof.
  cbv zeta.
  destruct (store_file_move_failure accept_all "auto.run"
              (mkWorld (heap ready_world) (session ready_world) ∅ true None
                       (fun _ => VNone) []) 1%nat true eq_refl eq_refl)
    as (w' & Hres & Hnode & _ & Hsess & _).
  - intros link [<- | []]. reflexivity.
  - reflexivity.
  - exists w'. split; [exact Hres |]. split; [| exact Hsess].
    rewrite Hnode. reflexivity.
Defined.

Lemma store_row_write_failure_witness :
  let w :=
    quiet_world (heap dangling_parent_world) (tables_of [(7, "uuid-B")] [] [] 8) in
  exists w',
    store accept_all "auto.run" 1%nat true w =
      Raise (SQLAlchemyError "duplicate uuid") w' /\
    _temp_folder (heap w' 1%nat) = Some ["f.txt"] /\
    _to_be_stored (heap w' 1%nat) = true.
Proof.
  cbv zeta.
  destruct (store_row_write_failure accept_all "auto.run"
              (quiet_world (heap dangling_parent_world)
                 (tables_of [(7, "uuid-B")] [] [] 8)) 1%nat true eq_refl eq_refl)
    as (w' & Hres & Hnode & _).
  - intros link [<- | []]. reflexivity.
  - reflexivity.
  - reflexivity.
  - vm_compute. reflexivity.
  - exists w'. split; [exact Hres |]. rewrite Hnode. split; reflexivity.
Defined.

(** * The storage flag and the other objects *)

Section StoreInvariant.

Variable _validate : Node -> option string.
Variable VERDIAUTOGROUP_TYPE : string.

(** X17: However [store] ends, by returning or by raising at any step, it has
    changed no Python object but the node it was called on, that node has
    kept its uuid, and no node that was stored has become unstored: the
    storage flag only ever goes from unstored to stored. *)
Theorem store_touches_only_its_node (w w' : World) (self : loc) (wt : bool) :
  world_after (store _validate VERDIAUTOGROUP_TYPE self wt w) = Some w' ->
  (forall r, r <> self -> heap w' r = heap w r) /\
  uuid (_dbnode (heap w' self)) = uuid (_dbnode (heap w self)) /\
  stored_kept w w'.
Proof.
  intros Hafter.
  pose proof (local_store _validate VERDIAUTOGROUP_TYPE self wt w) as Hlocal.
  destruct (store _validate VERDIAUTOGROUP_TYPE self wt w) as [r w0 | e w0 |];
    simpl in *; [| | discriminate]; inversion Hafter; subst w0;
    (split; [apply Hlocal |]; split; [apply Hlocal |];
     eapply local_to_stored_kept; exact Hlocal).
Qed.

End StoreInvariant.

Lemma store_touches_only_its_node_witness :
  exists w',
    world_after (store accept_all "auto.run" 1%nat true dangling_parent_world)
      = Some w' /\
    heap w' 0%nat = heap dangling_parent_world 0%nat /\
    _to_be_stored (heap w' 0%nat) = false.
Proof.
  destruct (world_after (store accept_all "auto.run" 1%nat true dangling_parent_world))
    as [w' |] eqn:E.
  - destruct (store_touches_only_its_node accept_all "auto.run" _ _ _ _ E)
      as (Hothers & _ & Hkept).
    exists w'. split; [reflexivity |]. split.
    + apply Hothers. discriminate.
    + apply Hkept. reflexivity.
  - exfalso. vm_compute in E. discriminate.
Defined.

(** * A commit that fails *)

Lemma commit_state_kept_refl (w : World) : commit_state_kept w w.
Proof. unfold commit_state_kept. auto. Qed.

Lemma commit_state_kept_trans (a b c : World) :
  commit_state_kept a b -> commit_state_kept b c -> commit_state_kept a c.
Proof.
  unfold commit_state_kept. intros (H1 & H2 & H3 & H4) (K1 & K2 & K3 & K4).
  repeat split; congruence.
Qed.

Lemma commit_state_append_links (w : World) (rows : list DbLink) :
  commit_state_kept w (append_links w rows).
Proof. unfold commit_state_kept. auto. Qed.

Lemma commit_state_flush (self : loc) (w w' : World) (u : unit) :
  _store_cached_input_links self false w = Return u w' ->
  commit_state_kept w w'.
Proof.
  unfold _store_cached_input_links. unfold bind at 1. unfold read_node at 1.
  destruct (_to_be_stored (heap w self)); [discriminate |].
  unfold bind at 1.
  destruct (check_parents_cases self w) as [[-> _] | [-> _]]; [| discriminate].
  unfold bind at 1.
  pose proof (add_cached_links_spec self (_inputlinks_cache (heap w self)) w) as Hloop.
  destruct (add_cached_links self _ w) as [[] w1 | e1 w1 |];
    [| discriminate | contradiction].
  subst w1. unfold bind, read_node, write_node, ret.
  intros H. inversion H. unfold commit_state_kept. auto.
Qed.

Lemma commit_state_dbnode_save (self : loc) (w w' : World) (u : unit) :
  dbnode_save self w = Return u w' -> commit_state_kept w w'.
Proof.
  unfold dbnode_save. destruct (id _).
  - intros H. inversion H. unfold commit_state_kept. auto.
  - destruct (uuid_taken _ _); [discriminate |].
    intros H. inversion H. unfold commit_state_kept. auto.
Qed.

(** The [try:] block without and with the final commit: the steps before
    the commit are the same. *)
Lemma store_try_with_commit (self : loc) (w : World) :
  store_try self true w =
    match store_try self false w with
    | Return _ w' =>
        try_except session_commit
          (fun e =>
             match e with
             | SQLAlchemyError m =>
                 bind (print ("Cannot store the node. Original exception: " +:+ m))
                      (fun _ => session_rollback)
             | _ => raise e
             end) w'
    | Raise e w' => Raise e w'
    | OutOfFuel => OutOfFuel
    end.
Proof.
  unfold store_try, bind.
  destruct (dbnode_save self w) as [[] w1 | |]; try reflexivity.
  destruct (move_attrs_cache self w1) as [[] w2 | |]; try reflexivity.
  unfold read_node, write_node.
  destruct (_store_cached_input_links self false _) as [[] w3 | |]; reflexivity.
Qed.

Lemma store_try_commit_state (self : loc) (w w' : World) (u : unit) :
  store_try self false w = Return u w' -> commit_state_kept w w'.
Proof.
  unfold store_try, bind.
  destruct (dbnode_save self w) as [[] w1 | |] eqn:E1;
    [| discriminate | discriminate].
  apply commit_state_dbnode_save in E1.
  destruct (move_attrs_cache self w1) as [[] w2 | |] eqn:E2;
    [| discriminate | discriminate].
  assert (H2 : commit_state_kept w1 w2).
  { unfold move_attrs_cache, bind, read_node, write_node in E2.
    destruct (_attrs_cache _); [| discriminate].
    inversion E2. unfold commit_state_kept. auto. }
  unfold read_node, write_node.
  match goal with
  | |- context [_store_cached_input_links self false ?w0] =>
      assert (H3 : commit_state_kept w2 w0) by (unfold commit_state_kept; auto);
      destruct (_store_cached_input_links self false w0) as [[] w3 | |] eqn:E3;
        [| discriminate | discriminate]
  end.
  apply commit_state_flush in E3.
  unfold ret. intros H. inversion H. subst w'.
  eauto using commit_state_kept_trans.
Qed.

Lemma autogroup_hook_elsewhere (T : string) (self : loc) (w w' w0 : World)
    (u : unit) :
  autogroup_hook T self w = Return u w' ->
  heap w0 = heap w ->
  current_autogroup w0 = current_autogroup w ->
  exists w0',
    autogroup_hook T self w0 = Return tt w0' /\
    heap w0' = heap w0 /\ heap w' = heap w /\
    repository w0' = repository w0 /\ repository w' = repository w /\
    stdout w0' = stdout w0 /\
    committed (session w0') = committed (session w0) /\
    db_nodes (cur (session w0')) = db_nodes (cur (session w0)) /\
    db_links (cur (session w0')) = db_links (cur (session w0)).
Proof.
  unfold autogroup_hook. intros H Hheap Hag. rewrite Hag, Hheap.
  destruct (current_autogroup w) as [[| f name] |].
  - discriminate.
  - destruct (f (heap w self)).
    + destruct name.
      * unfold group_add_node in *. inversion H. eexists. split; [reflexivity |].
        simpl. auto 10.
      * inversion H. subst. exists w0. auto 10.
    + inversion H. subst. exists w0. auto 10.
  - inversion H. subst. exists w0. auto 10.
Qed.

Section CommitFailure.

Variable _validate : Node -> option string.
Variable VERDIAUTOGROUP_TYPE : string.

(** X18: A refused commit is swallowed.  Take an unstored node on which
    [store(with_transaction=False)] returns.  If the backend refuses the
    commit, [store(with_transaction=True)] returns all the same, with the
    same Python objects (the node flagged as stored, its caches gone)
    and the same repository; it has printed one line, and the session is
    rolled back: its node and link tables are those of the last commit,
    so neither the row of the node nor its links are in them. *)
Theorem store_swallows_commit_failure (w w1 : World) (self r : loc) :
  _to_be_stored (heap w self) = true ->
  commit_fails (session w) = true ->
  store _validate VERDIAUTOGROUP_TYPE self false w = Return r w1 ->
  exists w2,
    store _validate VERDIAUTOGROUP_TYPE self true w = Return r w2 /\
    heap w2 = heap w1 /\
    _to_be_stored (heap w2 self) = false /\
    repository w2 = repository w1 /\
    stdout w2 = stdout w ++ [msg_cannot_store] /\
    committed (session w2) = committed (session w) /\
    db_nodes (cur (session w2)) = db_nodes (committed (session w)) /\
    db_links (cur (session w2)) = db_links (committed (session w)).
Proof.
  intros Hflag Hfails Hstore.
  pose proof (store_unstored_Return _validate VERDIAUTOGROUP_TYPE self r false
                w w1 Hflag Hstore) as (_ & c & _ & Hstored & _).
  assert (Hshape : forall wt,
    store _validate VERDIAUTOGROUP_TYPE self wt w =
      match _validate (heap w self) with
      | Some msg => Raise (ValidationError msg) w
      | None =>
          bind (_check_are_parents_stored self)
            (fun _ => bind (_get_temp_folder self)
            (fun _ => bind (repository_replace_with_temp self)
            (fun _ => bind (try_except (store_try self wt) (store_except self))
            (fun _ => bind (autogroup_hook VERDIAUTOGROUP_TYPE self)
            (fun _ => ret self))))) w
      end).
  { intros wt. unfold store. unfold bind at 1, read_node at 1. rewrite Hflag.
    unfold bind at 1, validate. destruct (_validate (heap w self)); reflexivity. }
  rewrite Hshape in Hstore. rewrite Hshape. clear Hshape.
  destruct (_validate (heap w self)); [discriminate |].
  revert Hstore. unfold bind at 1 6.
  destruct (check_parents_cases self w) as [[-> _] | [-> _]]; [| discriminate].
  unfold bind at 1 5.
  destruct (get_temp_folder_detail self w)
    as (wa & -> & _ & _ & Hfsa & Hsessa & _ & Hstdouta & _).
  unfold bind at 1 4.
  destruct (repository_replace_with_temp self wa) as [[] wb | |] eqn:Eb;
    [| discriminate | discriminate].
  assert (Hb : commit_state_kept w wb).
  { unfold repository_replace_with_temp in Eb.
    destruct (fs_fails wa); [discriminate |]. inversion Eb.
    unfold commit_state_kept. simpl. rewrite Hsessa, Hstdouta. auto. }
  unfold bind at 1 3. unfold try_except at 1 2.
  rewrite (store_try_with_commit self wb).
  destruct (store_try self false wb) as [[] wc | e wc |] eqn:Ec;
    [| | discriminate].
  2: { destruct (store_except self e wc) as [[] wd | |] eqn:Ed; try discriminate.
       exfalso. exact (store_except_not_Return _ _ _ _ _ Ed). }
  apply store_try_commit_state in Ec.
  pose proof (commit_state_kept_trans _ _ _ Hb Ec) as (Hcm & Hcf & _ & Hout).
  unfold try_except, session_commit. rewrite Hcf, Hfails.
  unfold bind at 3. unfold print at 1. unfold session_rollback at 1.
  unfold bind at 1 2.
  destruct (autogroup_hook VERDIAUTOGROUP_TYPE self wc) as [[] wd | |] eqn:Ed;
    [| discriminate | discriminate].
  unfold ret. intros H. inversion H. subst r w1. clear H.
  match goal with
  | |- context [autogroup_hook VERDIAUTOGROUP_TYPE self ?w0] =>
      destruct (autogroup_hook_elsewhere VERDIAUTOGROUP_TYPE self wc wd w0 tt Ed
                  eq_refl eq_refl)
        as (w2 & -> & Hh2 & Hhd & Hr2 & Hrd & Hs2 & Hc2 & Hn2 & Hl2)
  end.
  exists w2. split; [reflexivity |].
  simpl in Hh2, Hr2, Hs2, Hc2, Hn2, Hl2.
  split; [congruence |]. split; [rewrite Hh2, <- Hhd; exact Hstored |].
  split; [congruence |].
  split; [rewrite Hs2, Hout; reflexivity |].
  split; [congruence |]. split; congruence.
Qed.

End CommitFailure.

Lemma store_swallows_commit_failure_witness :
  let w := set_session ready_world
             (mkSession (cur (session ready_world)) (committed (session ready_world))
                        [] true) in
  exists w2,
    store accept_all "auto.run" 1%nat true w = Return 1%nat w2 /\
    _to_be_stored (heap w2 1%nat) = false /\
    db_nodes (cur (session w2)) !! 2 = None /\
    db_links (cur (session w2)) = [] /\
    stdout w2 = [msg_cannot_store].
Proof.
  cbv zeta.
  set (w := set_session ready_world
              (mkSession (cur (session ready_world)) (committed (session ready_world))
                         [] true)).
  destruct (store accept_all "auto.run" 1%nat false w) as [r w1 | e w1 |] eqn:E.
  - destruct (store_swallows_commit_failure accept_all "auto.run" w w1 1%nat r
                eq_refl eq_refl E)
      as (w2 & Hres & _ & Hflag & _ & Hout & _ & Hnodes & Hlinks).
    assert (r = 1%nat) as -> by (vm_compute in E; now inversion E).
    exists w2. split; [exact Hres |]. split; [exact Hflag |].
    split; [rewrite Hnodes; vm_compute; reflexivity |].
    split; [rewrite Hlinks; reflexivity | rewrite Hout; reflexivity].
  - exfalso. vm_compute in E. discriminate.
  - exfalso. vm_compute in E. discriminate.
Defined.

(** * The check of the parents *)

(** X19: [_check_are_parents_stored] returns exactly when the source of every
    cached link is stored, and otherwise raises ModificationNotAllowed;
    in neither case does it change anything. *)
Theorem check_parents_stored_iff (w : World) (self : loc) :
  (_check_are_parents_stored self w = Return tt w <->
   forall link, In link (_inputlinks_cache (heap w self)) ->
                _to_be_stored (heap w (fst (snd link))) = false) /\
  (_check_are_parents_stored self w =
     Raise (ModificationNotAllowed msg_parent_unstored) w <->
   exists link, In link (_inputlinks_cache (heap w self)) /\
                _to_be_stored (heap w (fst (snd link))) = true).
Proof.
  destruct (check_parents_cases self w) as [[Hret Hall] | [Hraise Hex]].
  - rewrite Hret. split; split; try discriminate; auto.
    intros (link & Hin & Hf). rewrite (Hall link Hin) in Hf. discriminate.
  - rewrite Hraise. split; split; try discriminate; auto.
    intros Hall. destruct Hex as (link & Hin & Hf).
    rewrite (Hall link Hin) in Hf. discriminate.
Qed.

Lemma check_parents_stored_iff_witness :
  _check_are_parents_stored 1%nat ready_world = Return tt ready_world /\
  _check_are_parents_stored 1%nat orphan_world =
    Raise (ModificationNotAllowed msg_parent_unstored) orphan_world.
Proof.
  split.
  - apply (proj1 (check_parents_stored_iff ready_world 1%nat)).
    intros link [<- | []]. reflexivity.
  - apply (proj2 (check_parents_stored_iff orphan_world 1%nat)).
    exists ("parent", (0%nat, INPUT)). split; [now left | reflexivity].
Defined.

(** * The loops end *)

Lemma terminates_ret {A} (a : A) : terminates (ret a).
Proof. intros w. discriminate. Qed.

Lemma terminates_raise {A} (e : exn) : terminates (@raise A e).
Proof. intros w. discriminate. Qed.

Lemma terminates_bind {A B} (m : M A) (f : A -> M B) :
  terminates m -> (forall a, terminates (f a)) -> terminates (bind m f).
Proof.
  intros Hm Hf w. unfold bind. specialize (Hm w).
  destruct (m w) as [a w1 | e w1 |]; [apply Hf | discriminate | contradiction].
Qed.

Lemma terminates_try {A} (m : M A) (h : exn -> M A) :
  terminates m -> (forall e, terminates (h e)) -> terminates (try_except m h).
Proof.
  intros Hm Hh w. unfold try_except. specialize (Hm w).
  destruct (m w) as [a w1 | e w1 |]; [discriminate | apply Hh | contradiction].
Qed.

Lemma terminates_read (self : loc) : terminates (read_node self).
Proof. intros w. discriminate. Qed.

Lemma terminates_add_dblink_from self src l link_type :
  terminates (_add_dblink_from self src l link_type).
Proof.
  unfold _add_dblink_from.
  apply terminates_bind; [apply terminates_read |]. intros me.
  apply terminates_bind; [apply terminates_read |]. intros source.
  destruct (String.eqb _ _); [apply terminates_raise |].
  destruct (_to_be_stored me); [apply terminates_raise |].
  destruct (_to_be_stored source); [apply terminates_raise |].
  apply terminates_bind.
  { intros w. unfold check_cycle. destruct (is_strong _); [| discriminate].
    destruct (path_exists _ _ _); discriminate. }
  intros _. destruct l as [l0 |].
  - intros w. unfold _do_create_link. destruct (insert_link _ _); discriminate.
  - intros w. unfold add_autolabelled.
    destruct (skip_existing_total
                (existing_from_autolabels (cur (session w))
                   (id (_dbnode (heap w self)))) 1) as [first ->].
    destruct (autolabel_loop_spec self src link_type w 101 0 first)
      as [(k & s' & _ & _ & _ & ->) | [_ ->]]; [lia | lia | |]; discriminate.
Qed.

Lemma terminates_store_cached_input_links self wt :
  terminates (_store_cached_input_links self wt).
Proof.
  unfold _store_cached_input_links.
  apply terminates_bind; [apply terminates_read |]. intros me.
  destruct (_to_be_stored me); [apply terminates_raise |].
  apply terminates_bind.
  { intros w. unfold _check_are_parents_stored.
    destruct (offending_link _ _); discriminate. }
  intros _. apply terminates_bind.
  { intros w. pose proof (add_cached_links_spec self (_inputlinks_cache me) w) as H.
    destruct (add_cached_links self _ w); [discriminate | discriminate | contradiction]. }
  intros _. apply terminates_bind; [apply terminates_read |]. intros me'.
  apply terminates_bind; [intros w; discriminate |]. intros _.
  destruct wt; [| apply terminates_ret].
  intros w. rewrite commit_or_rollback_Return. discriminate.
Qed.

Section Termination.

Variable _validate : Node -> option string.
Variable VERDIAUTOGROUP_TYPE : string.

Lemma terminates_store self wt :
  terminates (store _validate VERDIAUTOGROUP_TYPE self wt).
Proof.
  unfold store.
  apply terminates_bind; [apply terminates_read |]. intros me.
  destruct (_to_be_stored me); [| apply terminates_ret].
  apply terminates_bind.
  { intros w. unfold validate. destruct (_validate _); discriminate. }
  intros _. apply terminates_bind.
  { intros w. unfold _check_are_parents_stored.
    destruct (offending_link _ _); discriminate. }
  intros _. apply terminates_bind.
  { intros w. unfold _get_temp_folder. destruct (_temp_folder _); discriminate. }
  intros _. apply terminates_bind.
  { intros w. unfold repository_replace_with_temp. destruct (fs_fails w); discriminate. }
  intros _. apply terminates_bind.
  { apply terminates_try.
    - unfold store_try. apply terminates_bind.
      { intros w. unfold dbnode_save. destruct (id _); [discriminate |].
        destruct (uuid_taken _ _); discriminate. }
      intros _. apply terminates_bind.
      { intros w. unfold move_attrs_cache, bind, read_node.
        destruct (_attrs_cache _); discriminate. }
      intros _. apply terminates_bind; [intros w; discriminate |].
      intros _. apply terminates_bind; [intros w; discriminate |].
      intros _. apply terminates_bind;
        [apply terminates_store_cached_input_links |].
      intros _. destruct wt; [| apply terminates_ret].
      apply terminates_try.
      + intros w. unfold session_commit. destruct (commit_fails _); discriminate.
      + intros e. destruct e; try apply terminates_raise.
        apply terminates_bind; intros; discriminate.
    - intros e. unfold store_except. apply terminates_bind.
      { intros w. unfold _get_temp_folder. destruct (_temp_folder _); discriminate. }
      intros _. apply terminates_bind; [| intros _; apply terminates_raise].
      intros w. unfold temp_replace_with_repository. destruct (fs_fails w); discriminate. }
  intros _. apply terminates_bind; [| intros _; apply terminates_ret].
  intros w. unfold autogroup_hook.
  destruct (current_autogroup w) as [[| f name] |]; try discriminate.
  destruct (f _); [| discriminate]. destruct name; discriminate.
Qed.

Lemma terminates_store_parents links :
  terminates (store_parents _validate VERDIAUTOGROUP_TYPE links).
Proof.
  induction links as [| [l [parent link_type]] rest IH]; simpl.
  - apply terminates_ret.
  - apply terminates_bind; [apply terminates_read |]. intros p.
    apply terminates_bind; [| intros _; exact IH].
    destruct (is_stored p); [apply terminates_ret |].
    apply terminates_bind; [apply terminates_store |].
    intros _. apply terminates_ret.
Qed.

(** X20: The loops of the model run on fuel; the fuel they are given is
    always enough.  The search for the first free label ends (the query
    result is finite), the retry loop ends within its 100 attempts, and
    so [_add_dblink_from], [_store_cached_input_links], [store] and
    [store_all] end in every world, by returning or by raising. *)
Theorem link_and_store_calls_end (w : World) (self src : loc)
    (l : option string) (link_type : LinkType) (wt : bool) :
  _add_dblink_from self src l link_type w <> OutOfFuel /\
  _store_cached_input_links self wt w <> OutOfFuel /\
  store _validate VERDIAUTOGROUP_TYPE self wt w <> OutOfFuel /\
  store_all _validate VERDIAUTOGROUP_TYPE self wt w <> OutOfFuel.
Proof.
  split; [apply terminates_add_dblink_from |].
  split; [apply terminates_store_cached_input_links |].
  split; [apply terminates_store |].
  revert w. change (terminates (store_all _validate VERDIAUTOGROUP_TYPE self wt)).
  unfold store_all.
  apply terminates_bind; [apply terminates_read |]. intros me.
  destruct (_to_be_stored me); [| apply terminates_raise].
  apply terminates_bind.
  { intros w0. destruct (check_grandparents_cases (_inputlinks_cache me) w0)
      as [[-> _] | [-> _]]; discriminate. }
  intros _. apply terminates_bind.
  { unfold _store_input_nodes.
    apply terminates_bind; [apply terminates_read |]. intros me0.
    destruct (_to_be_stored me0); [apply terminates_store_parents |].
    apply terminates_raise. }
  intros _. apply terminates_bind; [apply terminates_store |].
  intros _. apply terminates_bind; [apply terminates_store_cached_input_links |].
  intros _. apply terminates_bind; [| intros _; apply terminates_ret].
  destruct wt; [| apply terminates_ret].
  intros w0. rewrite commit_or_rollback_Return. discriminate.
Qed.

End Termination.

Lemma link_and_store_calls_end_witness :
  _add_dblink_from 1%nat 0%nat None INPUT contended_world <> OutOfFuel /\
  store_all accept_all "auto.run" 2%nat true chain_world <> OutOfFuel.
Proof.
  split.
  - exact (proj1 (link_and_store_calls_end accept_all "auto.run" contended_world
                    1%nat 0%nat None INPUT true)).
  - exact (proj2 (proj2 (proj2 (link_and_store_calls_end accept_all "auto.run"
                    chain_world 2%nat 0%nat None INPUT true)))).
Defined.
